(** * Turn lifecycle orchestrator of CodexMonitor

    A shallow embedding of the two hooks that drive a thread's turn
    lifecycle:

    - [useThreadMessaging] (sendMessageToThread, sendUserMessage,
      interruptTurn, startReview), and
    - [useThreadTurnEvents] (onTurnStarted, onTurnCompleted, onTurnError).

    The reducer behind [dispatch], the callbacks [markProcessing],
    [markReviewing], [setActiveTurnId], [pushThreadErrorMessage] and the
    helpers of [threadNormalize] live outside these two hooks; they are
    modelled from the specification and marked as such. *)

From Stdlib Require Import ZArith Ascii String.
From stdpp Require Import gmap strings list pretty.

Open Scope string_scope.
Open Scope list_scope.
Set Warnings "-register-all,-clear-no-such-hyp".

(** ** JavaScript values

    RPC responses are [Record<string, unknown>]; the hooks walk them with
    optional chaining and nullish coalescing. *)

Inductive JValue :=
| JUndefined
| JNull
| JBool (b : bool)
| JNum (n : Z)
| JStr (s : string)
| JObj (fields : list (string * JValue))
| JArr (elems : list JValue).

Fixpoint getField (k : string) (fields : list (string * JValue)) : JValue :=
  match fields with
  | [] => JUndefined
  | (k', v) :: rest => if String.eqb k k' then v else getField k rest
  end.

(** [v?.k]: a property read that yields [undefined] on anything that has
    no such own property. *)
Definition prop (v : JValue) (k : string) : JValue :=
  match v with
  | JObj fields => getField k fields
  | _ => JUndefined
  end.

Definition nullish (v : JValue) : bool :=
  match v with
  | JUndefined | JNull => true
  | _ => false
  end.

(** [a ?? b] *)
Definition coalesce (a b : JValue) : JValue := if nullish a then b else a.

(** Truthiness of a string: only the empty string is falsy. *)
Definition truthyStr (s : string) : bool :=
  match s with
  | EmptyString => false
  | String _ _ => true
  end.

Definition truthy (v : JValue) : bool :=
  match v with
  | JUndefined | JNull => false
  | JBool b => b
  | JNum n => negb (n =? 0)%Z
  | JStr s => truthyStr s
  | JObj _ | JArr _ => true
  end.

(** [String.prototype.trim], on the ASCII white space and line
    terminators. *)
Definition isSpace (c : ascii) : bool :=
  let n := nat_of_ascii c in
  ((9 <=? n)%nat && (n <=? 13)%nat) || (n =? 32)%nat.

Fixpoint trimStart (s : string) : string :=
  match s with
  | EmptyString => EmptyString
  | String c rest => if isSpace c then trimStart rest else s
  end.

Fixpoint trimEnd (s : string) : string :=
  match s with
  | EmptyString => EmptyString
  | String c rest =>
      match trimEnd rest with
      | EmptyString => if isSpace c then EmptyString else String c EmptyString
      | rest' => String c rest'
      end
  end.

Definition trim (s : string) : string := trimEnd (trimStart s).

(** ** Helpers of [threadNormalize] *)

(** Modelled from the spec: [asString] of threadNormalize is missing.
    Normalization "fails soft to empty/default values rather than
    raising": a string is passed through, anything else becomes the empty
    string. *)
Definition asString (v : JValue) : string :=
  match v with
  | JStr s => s
  | _ => ""
  end.

(** Modelled from the spec: [extractRpcErrorMessage] of threadNormalize is
    missing. "[error] present at top level or nested under [result]
    signals failure"; the text surfaced is "the raw error text" when the
    error is a string, else its [message], else a generic text. The
    result is [None] for [null]. *)
Definition embeddedError (response : JValue) : JValue :=
  if truthy (prop response "error") then prop response "error"
  else prop (prop response "result") "error".

(** Modelled from the spec: the text of an embedded error, part of the
    missing [extractRpcErrorMessage]; never empty for a truthy error. *)
Definition errorText (error : JValue) : string :=
  match error with
  | JStr s => s
  | _ => if truthyStr (asString (prop error "message"))
         then asString (prop error "message")
         else "Unknown error"
  end.

(** Modelled from the spec: the missing [extractRpcErrorMessage] itself,
    as described above. *)
Definition extractRpcErrorMessage (response : JValue) : option string :=
  if truthy (embeddedError response)
  then Some (errorText (embeddedError response))
  else None.

(** ** Thread state store *)

Record ThreadStatus := {
  isProcessing : bool;
  hasUnread : bool;
  isReviewing : bool;
}.

Record ConversationItem := {
  itemId : string;
  itemKind : string;
  itemRole : string;
  itemText : string;
}.

(** Modelled from the spec: the type [ThreadState] of the missing
    [useThreadsReducer]. [threadStatusById] and [activeTurnIdByThread] are
    the two fields the hooks read; the remaining fields hold what the
    dispatched actions write (section 3: a thread belongs to a workspace
    and owns an ordered sequence of items and a last-activity
    timestamp). *)
Record ThreadState := {
  threadsByWorkspace : gmap string (list string);
  itemsByThread : gmap string (list ConversationItem);
  threadStatusById : gmap string ThreadStatus;
  activeTurnIdByThread : gmap string (option string);
  timestampByThread : gmap string Z;
}.

(** Outbound calls and side channels, in the order they are made. A debug
    entry is recorded by its source and label, a metric by its name. *)
Inductive Effect :=
| SendUserMessageRpc (workspaceId threadId text : string)
    (model effort collaborationMode accessMode : JValue)
    (images : list string)
| InterruptTurnRpc (workspaceId threadId turnId : string)
| StartReviewRpc (workspaceId threadId : string) (target : JValue)
    (mode : string)
| DebugEntry (source label : string)
| MessageActivity
| ThreadActivity (workspaceId threadId : string) (timestamp : Z)
| MetricCount (name : string).

(** The world the two hooks act on: the store behind [dispatch], the set
    behind [pendingInterruptsRef], and the trace of effects. *)
Record World := {
  store : ThreadState;
  pendingInterrupts : gset string;
  effects : list Effect;
}.

Definition emptyStore : ThreadState :=
  {| threadsByWorkspace := ∅; itemsByThread := ∅; threadStatusById := ∅;
     activeTurnIdByThread := ∅; timestampByThread := ∅ |}.

Definition emptyWorld : World :=
  {| store := emptyStore; pendingInterrupts := ∅; effects := [] |}.

(** *** Reads, as the hooks perform them *)

Definition idleStatus : ThreadStatus :=
  {| isProcessing := false; hasUnread := false; isReviewing := false |}.

(** [threadStatusById[threadId]?.flag ?? false] *)
Definition statusOf (s : ThreadState) (threadId : string) : ThreadStatus :=
  default idleStatus (threadStatusById s !! threadId).

(** [activeTurnIdByThread[threadId] ?? null] *)
Definition activeTurnIdOf (s : ThreadState) (threadId : string)
  : option string :=
  default None (activeTurnIdByThread s !! threadId).

Definition itemsOf (s : ThreadState) (threadId : string)
  : list ConversationItem :=
  default [] (itemsByThread s !! threadId).

Definition threadsOf (s : ThreadState) (workspaceId : string) : list string :=
  default [] (threadsByWorkspace s !! workspaceId).

Definition threadExists (s : ThreadState) (workspaceId threadId : string)
  : Prop :=
  threadId ∈ threadsOf s workspaceId.

(** *** Mutations

    Modelled from the spec: the reducer [useThreadsReducer] is missing.
    Section 4.1 lists its mutation kinds: ensure-thread-exists
    (idempotent), upsert-item (insert or replace by id, new ids append),
    set-thread-timestamp, set-processing-flag, set-reviewing-flag,
    set-active-turn-id and append-assistant-message; each is a pure
    function of the previous state. *)

(** Modelled from the spec: ensure-thread-exists (idempotent). *)
Definition reduce_ensureThread (workspaceId threadId : string)
  (s : ThreadState) : ThreadState :=
  if decide (threadId ∈ threadsOf s workspaceId) then s
  else
    {| threadsByWorkspace :=
         <[workspaceId := threadsOf s workspaceId ++ [threadId]]>
           (threadsByWorkspace s);
       itemsByThread := itemsByThread s;
       threadStatusById := threadStatusById s;
       activeTurnIdByThread := activeTurnIdByThread s;
       timestampByThread := timestampByThread s |}.

(** Modelled from the spec: "insert or replace by id, preserving sequence
    order; new ids append". *)
Fixpoint upsert (item : ConversationItem) (items : list ConversationItem)
  : list ConversationItem :=
  match items with
  | [] => [item]
  | i :: rest =>
      if String.eqb (itemId i) (itemId item) then item :: rest
      else i :: upsert item rest
  end.

(** Modelled from the spec: upsert-item. *)
Definition reduce_upsertItem (threadId : string) (item : ConversationItem)
  (s : ThreadState) : ThreadState :=
  {| threadsByWorkspace := threadsByWorkspace s;
     itemsByThread :=
       <[threadId := upsert item (itemsOf s threadId)]> (itemsByThread s);
     threadStatusById := threadStatusById s;
     activeTurnIdByThread := activeTurnIdByThread s;
     timestampByThread := timestampByThread s |}.

(** Modelled from the spec: set-thread-timestamp. *)
Definition reduce_setThreadTimestamp (threadId : string) (timestamp : Z)
  (s : ThreadState) : ThreadState :=
  {| threadsByWorkspace := threadsByWorkspace s;
     itemsByThread := itemsByThread s;
     threadStatusById := threadStatusById s;
     activeTurnIdByThread := activeTurnIdByThread s;
     timestampByThread := <[threadId := timestamp]> (timestampByThread s) |}.

(** Modelled from the spec: set-processing-flag; the other flags of the
    thread's status are kept. *)
Definition reduce_markProcessing (threadId : string) (flag : bool)
  (s : ThreadState) : ThreadState :=
  {| threadsByWorkspace := threadsByWorkspace s;
     itemsByThread := itemsByThread s;
     threadStatusById :=
       <[threadId :=
           {| isProcessing := flag;
              hasUnread := hasUnread (statusOf s threadId);
              isReviewing := isReviewing (statusOf s threadId) |}]>
         (threadStatusById s);
     activeTurnIdByThread := activeTurnIdByThread s;
     timestampByThread := timestampByThread s |}.

(** Modelled from the spec: set-reviewing-flag; the other flags of the
    thread's status are kept. *)
Definition reduce_markReviewing (threadId : string) (flag : bool)
  (s : ThreadState) : ThreadState :=
  {| threadsByWorkspace := threadsByWorkspace s;
     itemsByThread := itemsByThread s;
     threadStatusById :=
       <[threadId :=
           {| isProcessing := isProcessing (statusOf s threadId);
              hasUnread := hasUnread (statusOf s threadId);
              isReviewing := flag |}]>
         (threadStatusById s);
     activeTurnIdByThread := activeTurnIdByThread s;
     timestampByThread := timestampByThread s |}.

(** Modelled from the spec: set-active-turn-id ([None] is [null]). *)
Definition reduce_setActiveTurnId (threadId : string)
  (turnId : option string) (s : ThreadState) : ThreadState :=
  {| threadsByWorkspace := threadsByWorkspace s;
     itemsByThread := itemsByThread s;
     threadStatusById := threadStatusById s;
     activeTurnIdByThread := <[threadId := turnId]> (activeTurnIdByThread s);
     timestampByThread := timestampByThread s |}.

(** Modelled from the spec: the item of append-assistant-message. The
    identity the store gives it is not specified; the field is left
    empty. *)
Definition assistantMessage (text : string) : ConversationItem :=
  {| itemId := ""; itemKind := "message"; itemRole := "assistant";
     itemText := text |}.

(** Modelled from the spec: append-assistant-message, at the end of the
    thread's item sequence. *)
Definition reduce_addAssistantMessage (threadId text : string)
  (s : ThreadState) : ThreadState :=
  {| threadsByWorkspace := threadsByWorkspace s;
     itemsByThread :=
       <[threadId := itemsOf s threadId ++ [assistantMessage text]]>
         (itemsByThread s);
     threadStatusById := threadStatusById s;
     activeTurnIdByThread := activeTurnIdByThread s;
     timestampByThread := timestampByThread s |}.

(** ** The monad of the hooks

    A hook callback reads and writes the world and returns a value. *)

Definition M (A : Type) : Type := World → A * World.

#[global] Instance M_ret : MRet M := λ A a w, (a, w).
#[global] Instance M_bind : MBind M :=
  λ A B f m w, let (a, w') := m w in f a w'.

Definition exec {A} (m : M A) (w : World) : World := snd (m w).
Definition result {A} (m : M A) (w : World) : A := fst (m w).

Definition when (b : bool) (m : M unit) : M unit :=
  if b then m else mret ().

Definition readStore : M ThreadState := λ w, (store w, w).

Definition emit (e : Effect) : M unit :=
  λ w, ((), {| store := store w; pendingInterrupts := pendingInterrupts w;
               effects := effects w ++ [e] |}).

(** [pendingInterruptsRef.current]: one set shared by both hooks. *)
Definition pendingHas (threadId : string) : M bool :=
  λ w, (bool_decide (threadId ∈ pendingInterrupts w), w).

Definition pendingAdd (threadId : string) : M unit :=
  λ w, ((), {| store := store w;
               pendingInterrupts := {[threadId]} ∪ pendingInterrupts w;
               effects := effects w |}).

Definition pendingDelete (threadId : string) : M unit :=
  λ w, ((), {| store := store w;
               pendingInterrupts := pendingInterrupts w ∖ {[threadId]};
               effects := effects w |}).

(** Modelled from the spec: the actions of the missing reducer that the
    two hooks dispatch, directly or through their callbacks. *)
Inductive ThreadAction :=
| EnsureThread (workspaceId threadId : string)
| UpsertItem (workspaceId threadId : string) (item : ConversationItem)
    (hasCustomName : bool)
| SetThreadTimestamp (workspaceId threadId : string) (timestamp : Z)
| MarkProcessing (threadId : string) (flag : bool)
| MarkReviewing (threadId : string) (flag : bool)
| SetActiveTurnId (threadId : string) (turnId : option string)
| AddAssistantMessage (threadId text : string).

(** Modelled from the spec: the missing reducer, "a pure function of
    (previous state, action)". *)
Definition threadReducer (s : ThreadState) (action : ThreadAction)
  : ThreadState :=
  match action with
  | EnsureThread workspaceId threadId =>
      reduce_ensureThread workspaceId threadId s
  | UpsertItem _ threadId item _ => reduce_upsertItem threadId item s
  | SetThreadTimestamp _ threadId timestamp =>
      reduce_setThreadTimestamp threadId timestamp s
  | MarkProcessing threadId flag => reduce_markProcessing threadId flag s
  | MarkReviewing threadId flag => reduce_markReviewing threadId flag s
  | SetActiveTurnId threadId turnId =>
      reduce_setActiveTurnId threadId turnId s
  | AddAssistantMessage threadId text =>
      reduce_addAssistantMessage threadId text s
  end.

Definition dispatch (action : ThreadAction) : M unit :=
  λ w, ((), {| store := threadReducer (store w) action;
               pendingInterrupts := pendingInterrupts w;
               effects := effects w |}).

(** Modelled from the spec: the callbacks handed to both hooks are
    missing; they are the store's set-processing-flag, set-reviewing-flag
    and set-active-turn-id mutations, and a thread-scoped error is
    "appended as a system/assistant-style Item in that thread's item
    sequence". *)
Definition markProcessing (threadId : string) (flag : bool) : M unit :=
  dispatch (MarkProcessing threadId flag).

(** Modelled from the spec: the missing callback [markReviewing]. *)
Definition markReviewing (threadId : string) (flag : bool) : M unit :=
  dispatch (MarkReviewing threadId flag).

(** Modelled from the spec: the missing callback [setActiveTurnId]. *)
Definition setActiveTurnId (threadId : string) (turnId : option string)
  : M unit :=
  dispatch (SetActiveTurnId threadId turnId).

(** Modelled from the spec: the missing callback
    [pushThreadErrorMessage]. *)
Definition pushThreadErrorMessage (threadId message : string) : M unit :=
  dispatch (AddAssistantMessage threadId message).

(** [safeMessageActivity] and [recordThreadActivity] are callbacks of
    collaborators outside the store; only the call is recorded. *)
Definition safeMessageActivity : M unit := emit MessageActivity.

Definition recordThreadActivity (workspaceId threadId : string)
  (timestamp : Z) : M unit :=
  emit (ThreadActivity workspaceId threadId timestamp).

(** ** Settled promises *)

(** What a [catch] clause receives: an [Error] instance, or any other
    thrown value together with its [String(error)] rendering. *)
Inductive Thrown :=
| ErrorInstance (message : string)
| OtherThrown (rendering : string).

(** [error instanceof Error ? error.message : String(error)] *)
Definition thrownText (error : Thrown) : string :=
  match error with
  | ErrorInstance message => message
  | OtherThrown rendering => rendering
  end.

Inductive RpcOutcome :=
| Resolved (response : JValue)
| Rejected (error : Thrown).

(** ** useThreadMessaging *)

Record WorkspaceInfo := {
  id : string;
  name : string;
  connected : bool;
}.

(** Each field is [undefined] when the option is not given. *)
Record SendMessageOptions := {
  skipPromptExpansion : bool;
  optModel : JValue;
  optEffort : JValue;
  optCollaborationMode : JValue;
  optAccessMode : JValue;
}.

(** Result of [expandCustomPromptText]: [null], [{ error }] or
    [{ expanded }]. *)
Inductive PromptExpansion :=
| NoExpansion
| ExpansionError (error : string)
| Expanded (expanded : string).

(** The readings of [Date.now()] and [Math.random()] taken by one call of
    [sendMessageToThread]. *)
Record Clock := {
  nowAtItem : Z;
  randomSuffix : string;
  timestamp : Z;
}.

Section Hooks.

(** [CustomPromptOption], [expandCustomPromptText] (utils/customPrompts)
    and [parseReviewTarget] (threadNormalize) are imported from files
    that are missing; the hooks are parametric in them. *)
Variable CustomPromptOption : Type.
Variable expandCustomPromptText :
  string → list CustomPromptOption → PromptExpansion.
Variable parseReviewTarget : string → JValue.

(** [UseThreadMessagingOptions]. The fields [threadStatusById] and
    [activeTurnIdByThread] are read from the store of the world the
    callback runs in (the hook is re-rendered with the current state);
    the callbacks are the ones defined above. [onDebug] tells whether
    the optional callback is given. *)
Record Props := {
  activeWorkspace : option WorkspaceInfo;
  activeThreadId : option string;
  accessMode : JValue;
  model : JValue;
  effort : JValue;
  collaborationMode : JValue;
  steerEnabled : bool;
  customPrompts : list CustomPromptOption;
  onDebug : bool;
  getCustomName : string → string → option string;
}.

(** [onDebug?.(entry)] *)
Definition debug (props : Props) (source label : string) : M unit :=
  when (onDebug props) (emit (DebugEntry source label)).

(** [options?.field !== undefined ? options.field : fallback] *)
Definition resolveOption (options : option SendMessageOptions)
  (field : SendMessageOptions → JValue) (fallback : JValue) : JValue :=
  match options with
  | Some o => match field o with JUndefined => fallback | v => v end
  | None => fallback
  end.

(** [sendMessageToThread] up to its [await]: returns [true] when the
    start-turn RPC has been issued and the callback is suspended on it. *)
Definition sendMessageToThread (props : Props) (workspace : WorkspaceInfo)
  (threadId text : string) (images : list string)
  (options : option SendMessageOptions) (clock : Clock) : M bool :=
  let messageText := trim text in
  if negb (truthyStr messageText) && (length images =? 0)%nat
  then mret false
  else
    let promptExpansion :=
      if from_option skipPromptExpansion false options then NoExpansion
      else expandCustomPromptText messageText (customPrompts props) in
    match promptExpansion with
    | ExpansionError error =>
        pushThreadErrorMessage threadId error;;
        safeMessageActivity;;
        mret false
    | _ =>
        let finalText :=
          match promptExpansion with
          | Expanded expanded => expanded
          | _ => messageText
          end in
        let resolvedModel := resolveOption options optModel (model props) in
        let resolvedEffort :=
          resolveOption options optEffort (effort props) in
        let resolvedCollaborationMode :=
          resolveOption options optCollaborationMode
            (collaborationMode props) in
        let resolvedAccessMode :=
          resolveOption options optAccessMode (accessMode props) in
        s ← readStore;
        let wasProcessing :=
          isProcessing (statusOf s threadId) && steerEnabled props in
        when wasProcessing
          (let optimisticText :=
             if truthyStr finalText then finalText
             else if (0 <? length images)%nat then "[image]" else "" in
           when (truthyStr optimisticText)
             (dispatch
                (UpsertItem (id workspace) threadId
                   {| itemId :=
                        "optimistic-user-" +:+ pretty (nowAtItem clock)
                          +:+ "-" +:+ randomSuffix clock;
                      itemKind := "message";
                      itemRole := "user";
                      itemText := optimisticText |}
                   (from_option truthyStr false
                      (getCustomName props (id workspace) threadId)))));;
        emit (MetricCount "prompt_sent");;
        recordThreadActivity (id workspace) threadId (timestamp clock);;
        dispatch
          (SetThreadTimestamp (id workspace) threadId (timestamp clock));;
        markProcessing threadId true;;
        safeMessageActivity;;
        debug props "client" "turn/start";;
        emit (SendUserMessageRpc (id workspace) threadId finalText
                resolvedModel resolvedEffort resolvedCollaborationMode
                resolvedAccessMode images);;
        mret true
    end.

(** The turn id [sendMessageToThread] reads off a response:
    [asString(turn?.id ?? "")] with
    [turn = result?.turn ?? response?.turn ?? null] and
    [result = response?.result ?? response]. *)
Definition responseTurnId (response : JValue) : string :=
  let result := coalesce (prop response "result") response in
  let turn :=
    coalesce (coalesce (prop result "turn") (prop response "turn")) JNull in
  asString (coalesce (prop turn "id") (JStr "")).

(** [sendMessageToThread] from the point its [await] settles. *)
Definition sendMessageToThread_settled (props : Props) (threadId : string)
  (outcome : RpcOutcome) : M unit :=
  match outcome with
  | Resolved response =>
      debug props "server" "turn/start response";;
      match extractRpcErrorMessage response with
      | Some (String _ _ as rpcError) =>
          markProcessing threadId false;;
          setActiveTurnId threadId None;;
          pushThreadErrorMessage threadId
            ("Turn failed to start: " +:+ rpcError);;
          safeMessageActivity
      | _ =>
          let turnId := responseTurnId response in
          if negb (truthyStr turnId) then
            markProcessing threadId false;;
            setActiveTurnId threadId None;;
            pushThreadErrorMessage threadId "Turn failed to start.";;
            safeMessageActivity
          else setActiveTurnId threadId (Some turnId)
      end
  | Rejected error =>
      markProcessing threadId false;;
      setActiveTurnId threadId None;;
      debug props "error" "turn/start error";;
      pushThreadErrorMessage threadId (thrownText error);;
      safeMessageActivity
  end.

(** [interruptTurn] up to its [await]: returns [true] when the interrupt
    RPC has been issued. *)
Definition interruptTurn (props : Props) : M bool :=
  match activeWorkspace props, activeThreadId props with
  | Some workspace, Some (String _ _ as threadId) =>
      s ← readStore;
      let activeTurnId := activeTurnIdOf s threadId in
      let turnId := default "pending" activeTurnId in
      markProcessing threadId false;;
      setActiveTurnId threadId None;;
      dispatch (AddAssistantMessage threadId "Session stopped.");;
      when (negb (from_option truthyStr false activeTurnId))
        (pendingAdd threadId);;
      debug props "client" "turn/interrupt";;
      emit (InterruptTurnRpc (id workspace) threadId turnId);;
      mret true
  | _, _ => mret false
  end.

(** [interruptTurn] from the point its [await] settles. *)
Definition interruptTurn_settled (props : Props) (outcome : RpcOutcome)
  : M unit :=
  match outcome with
  | Resolved _ => debug props "server" "turn/interrupt response"
  | Rejected _ => debug props "error" "turn/interrupt error"
  end.

(** [startReview] between its two [await]s; [ensured] is what
    [ensureThreadForActiveWorkspace()] resolved to ([None] for [null]).
    Returns the thread the review-start RPC has been issued for. *)
Definition startReview (props : Props) (text : string)
  (ensured : option string) : M (option string) :=
  match activeWorkspace props with
  | None => mret None
  | Some workspace =>
      if negb (truthyStr (trim text)) then mret None
      else
        match ensured with
        | Some (String _ _ as threadId) =>
            let target := parseReviewTarget text in
            markProcessing threadId true;;
            markReviewing threadId true;;
            safeMessageActivity;;
            debug props "client" "review/start";;
            emit (StartReviewRpc (id workspace) threadId target "inline");;
            mret (Some threadId)
        | _ => mret None
        end
  end.

(** [startReview] from the point the review-start RPC settles. *)
Definition startReview_settled (props : Props) (threadId : string)
  (outcome : RpcOutcome) : M unit :=
  match outcome with
  | Resolved response =>
      debug props "server" "review/start response";;
      match extractRpcErrorMessage response with
      | Some (String _ _ as rpcError) =>
          markProcessing threadId false;;
          markReviewing threadId false;;
          setActiveTurnId threadId None;;
          pushThreadErrorMessage threadId
            ("Review failed to start: " +:+ rpcError);;
          safeMessageActivity
      | _ => mret ()
      end
  | Rejected error =>
      markProcessing threadId false;;
      markReviewing threadId false;;
      debug props "error" "review/start error";;
      pushThreadErrorMessage threadId (thrownText error);;
      safeMessageActivity
  end.

(** [sendUserMessage], with [ensured] the thread
    [ensureThreadForActiveWorkspace()] resolved to. *)
Definition sendUserMessage (props : Props) (text : string)
  (images : list string) (ensured : option string) (clock : Clock)
  : M bool :=
  match activeWorkspace props with
  | None => mret false
  | Some workspace =>
      let messageText := trim text in
      if negb (truthyStr messageText) && (length images =? 0)%nat
      then mret false
      else
        match expandCustomPromptText messageText (customPrompts props) with
        | ExpansionError error =>
            match activeThreadId props with
            | Some (String _ _ as threadId) =>
                pushThreadErrorMessage threadId error;;
                safeMessageActivity
            | _ => debug props "error" "prompt/expand error"
            end;;
            mret false
        | promptExpansion =>
            let finalText :=
              match promptExpansion with
              | Expanded expanded => expanded
              | _ => messageText
              end in
            match ensured with
            | Some (String _ _ as threadId) =>
                sendMessageToThread props workspace threadId finalText
                  images
                  (Some {| skipPromptExpansion := true;
                           optModel := JUndefined;
                           optEffort := JUndefined;
                           optCollaborationMode := JUndefined;
                           optAccessMode := JUndefined |})
                  clock
            | _ => mret false
            end
        end
  end.

(** ** useThreadTurnEvents *)

Definition onTurnStarted (workspaceId threadId turnId : string) : M unit :=
  dispatch (EnsureThread workspaceId threadId);;
  pending ← pendingHas threadId;
  if (pending : bool) then
    pendingDelete threadId;;
    when (truthyStr turnId)
      (emit (InterruptTurnRpc workspaceId threadId turnId))
  else
    markProcessing threadId true;;
    when (truthyStr turnId) (setActiveTurnId threadId (Some turnId)).

Definition onTurnCompleted (_workspaceId threadId _turnId : string)
  : M unit :=
  markProcessing threadId false;;
  setActiveTurnId threadId None;;
  pendingDelete threadId.

Definition onTurnError (workspaceId threadId _turnId : string)
  (message : string) (willRetry : bool) : M unit :=
  if willRetry then mret ()
  else
    dispatch (EnsureThread workspaceId threadId);;
    markProcessing threadId false;;
    markReviewing threadId false;;
    setActiveTurnId threadId None;;
    pushThreadErrorMessage threadId
      (if truthyStr message then "Turn failed: " +:+ message
       else "Turn failed.");;
    safeMessageActivity.

(** ** Interleavings

    Commands, settled RPCs and inbound events arrive one at a time; a
    callback runs to its next [await] without interruption. *)
Inductive Event :=
| CallSendMessageToThread (props : Props) (workspace : WorkspaceInfo)
    (threadId text : string) (images : list string)
    (options : option SendMessageOptions) (clock : Clock)
| CallSendUserMessage (props : Props) (text : string)
    (images : list string) (ensured : option string) (clock : Clock)
| SettleStartTurn (props : Props) (threadId : string)
    (outcome : RpcOutcome)
| CallInterruptTurn (props : Props)
| SettleInterrupt (props : Props) (outcome : RpcOutcome)
| CallStartReview (props : Props) (text : string)
    (ensured : option string)
| SettleStartReview (props : Props) (threadId : string)
    (outcome : RpcOutcome)
| TurnStarted (workspaceId threadId turnId : string)
| TurnCompleted (workspaceId threadId turnId : string)
| TurnError (workspaceId threadId turnId message : string)
    (willRetry : bool).

Definition step (w : World) (e : Event) : World :=
  match e with
  | CallSendMessageToThread props workspace threadId text images options
      clock =>
      exec (sendMessageToThread props workspace threadId text images
              options clock) w
  | CallSendUserMessage props text images ensured clock =>
      exec (sendUserMessage props text images ensured clock) w
  | SettleStartTurn props threadId outcome =>
      exec (sendMessageToThread_settled props threadId outcome) w
  | CallInterruptTurn props => exec (interruptTurn props) w
  | SettleInterrupt props outcome =>
      exec (interruptTurn_settled props outcome) w
  | CallStartReview props text ensured =>
      exec (startReview props text ensured) w
  | SettleStartReview props threadId outcome =>
      exec (startReview_settled props threadId outcome) w
  | TurnStarted workspaceId threadId turnId =>
      exec (onTurnStarted workspaceId threadId turnId) w
  | TurnCompleted workspaceId threadId turnId =>
      exec (onTurnCompleted workspaceId threadId turnId) w
  | TurnError workspaceId threadId turnId message willRetry =>
      exec (onTurnError workspaceId threadId turnId message willRetry) w
  end.

Definition run (w : World) (events : list Event) : World :=
  fold_left step events w.

End Hooks.

Arguments activeWorkspace {_} _.
Arguments activeThreadId {_} _.
Arguments onDebug {_} _.
Arguments steerEnabled {_} _.
Arguments debug {_} _ _ _.
Arguments sendMessageToThread {_} _ _ _ _ _ _ _ _.
Arguments sendMessageToThread_settled {_} _ _ _.
Arguments interruptTurn {_} _.
Arguments interruptTurn_settled {_} _ _.
Arguments startReview {_} _ _ _ _.
Arguments startReview_settled {_} _ _ _.
Arguments sendUserMessage {_} _ _ _ _ _ _.
Arguments CallSendMessageToThread {_} _ _ _ _ _ _ _.
Arguments CallSendUserMessage {_} _ _ _ _ _.
Arguments SettleStartTurn {_} _ _ _.
Arguments CallInterruptTurn {_} _.
Arguments SettleInterrupt {_} _ _.
Arguments CallStartReview {_} _ _ _.
Arguments SettleStartReview {_} _ _ _.
Arguments TurnStarted {_} _ _ _.
Arguments TurnCompleted {_} _ _ _.
Arguments TurnError {_} _ _ _ _ _.
Arguments step {_} _ _ _ _.
Arguments run {_} _ _ _ _.

(** ** Observations *)

(** The interrupt RPC calls made so far, oldest first. *)
Definition interruptCallOf (e : Effect)
  : option (string * string * string) :=
  match e with
  | InterruptTurnRpc workspaceId threadId turnId =>
      Some (workspaceId, threadId, turnId)
  | _ => None
  end.

Definition interruptCalls (w : World) : list (string * string * string) :=
  omap interruptCallOf (effects w).

Definition processing (w : World) (threadId : string) : bool :=
  isProcessing (statusOf (store w) threadId).

Definition reviewing (w : World) (threadId : string) : bool :=
  isReviewing (statusOf (store w) threadId).

Definition activeTurn (w : World) (threadId : string) : option string :=
  activeTurnIdOf (store w) threadId.

Definition items (w : World) (threadId : string) : list ConversationItem :=
  itemsOf (store w) threadId.

(** An error embedded in a response, at top level or under [result]. *)
Definition hasEmbeddedError (response : JValue) : bool :=
  truthy (prop response "error")
  || truthy (prop (prop response "result") "error").

(** The status invariant of a thread: a reviewing thread is processing. *)
Definition reviewImpliesProcessing (w : World) (threadId : string) : Prop :=
  reviewing w threadId = true → processing w threadId = true.

(** The outcomes on which [sendMessageToThread] reverts: a rejection, an
    embedded error, or a response without turn id. *)
Definition startTurnFails (outcome : RpcOutcome) : bool :=
  match outcome with
  | Rejected _ => true
  | Resolved response =>
      hasEmbeddedError response || negb (truthyStr (responseTurnId response))
  end.

(** The events that set a thread's processing flag to false without
    touching its reviewing flag: interruptTurn on that thread,
    turn-completed for it, and a failed start-turn RPC for it. *)
Definition clearsProcessingOnly {P : Type} (threadId : string)
  (e : Event P) : bool :=
  match e with
  | CallInterruptTurn props =>
      match activeWorkspace props, activeThreadId props with
      | Some _, Some (String _ _ as active) =>
          bool_decide (active = threadId)
      | _, _ => false
      end
  | TurnCompleted _ completed _ => bool_decide (completed = threadId)
  | SettleStartTurn _ started outcome =>
      bool_decide (started = threadId) && startTurnFails outcome
  | _ => false
  end.

(** A thread at rest: not processing, no active turn id, no interrupt
    pending. *)
Definition idle (w : World) (threadId : string) : Prop :=
  processing w threadId = false
  ∧ activeTurn w threadId = None
  ∧ threadId ∉ pendingInterrupts w.

(** Two worlds that answer every read of the hooks alike: the status and
    the active turn id of every thread (an absent entry reads as the
    default), and all other components. *)
Definition sameView (w w' : World) : Prop :=
  (∀ threadId, statusOf (store w) threadId = statusOf (store w') threadId)
  ∧ (∀ threadId,
       activeTurnIdOf (store w) threadId = activeTurnIdOf (store w') threadId)
  ∧ itemsByThread (store w) = itemsByThread (store w')
  ∧ threadsByWorkspace (store w) = threadsByWorkspace (store w')
  ∧ timestampByThread (store w) = timestampByThread (store w')
  ∧ pendingInterrupts w = pendingInterrupts w'
  ∧ effects w = effects w'.

(** ** Further observations *)


Definition isRpc (e : Effect) : bool :=
  match e with
  | SendUserMessageRpc _ _ _ _ _ _ _ _ | InterruptTurnRpc _ _ _
  | StartReviewRpc _ _ _ _ => true
  | _ => false
  end.

(** The RPC calls made so far, of all three kinds, oldest first. *)
Definition rpcCalls (w : World) : list Effect :=
  filter (λ e, isRpc e = true) (effects w).




(** The threads an event can act on. [sendUserMessage] reaches the
    ensured thread, or the active one when it reports an expansion
    error. *)
Definition touches {P : Type} (e : Event P) (threadId : string) : bool :=
  match e with
  | CallSendMessageToThread _ _ target _ _ _ _ =>
      bool_decide (target = threadId)
  | CallSendUserMessage props _ _ ensured _ =>
      bool_decide (ensured = Some threadId)
      || bool_decide (activeThreadId props = Some threadId)
  | SettleStartTurn _ target _ => bool_decide (target = threadId)
  | CallInterruptTurn props =>
      bool_decide (activeThreadId props = Some threadId)
  | SettleInterrupt _ _ => false
  | CallStartReview _ _ ensured => bool_decide (ensured = Some threadId)
  | SettleStartReview _ target _ => bool_decide (target = threadId)
  | TurnStarted _ target _ => bool_decide (target = threadId)
  | TurnCompleted _ target _ => bool_decide (target = threadId)
  | TurnError _ target _ _ _ => bool_decide (target = threadId)
  end.

Definition isInterruptCommand {P : Type} (e : Event P) : bool :=
  match e with
  | CallInterruptTurn _ => true
  | _ => false
  end.

Definition isTurnStarted {P : Type} (e : Event P) : bool :=
  match e with
  | TurnStarted _ _ _ => true
  | _ => false
  end.

(** No thread has the empty string recorded as its active turn id. *)
Definition noEmptyTurnId (w : World) : Prop :=
  ∀ threadId, activeTurn w threadId ≠ Some "".

(** The actions the hooks dispatch never record an empty turn id. *)
Definition wellFormedAction (action : ThreadAction) : Prop :=
  match action with
  | SetActiveTurnId _ (Some EmptyString) => False
  | _ => True
  end.

(** A callback whose every run relates the world before to the world
    after. *)
Definition preserves (R : World → World → Prop) {A : Type} (m : M A)
  : Prop :=
  ∀ w, R w (exec m w).

(** What can be read of one thread is the same in two worlds: its status,
    its active turn id, its items, and whether an interrupt is pending
    for it. *)
Definition sameThread (w w' : World) (threadId : string) : Prop :=
  statusOf (store w') threadId = statusOf (store w) threadId
  ∧ activeTurnIdOf (store w') threadId = activeTurnIdOf (store w) threadId
  ∧ itemsOf (store w') threadId = itemsOf (store w) threadId
  ∧ (threadId ∈ pendingInterrupts w' ↔ threadId ∈ pendingInterrupts w).


(** ** Sidebar

    The parts of the sidebar component that compute on the thread state:
    the collapse and expand toggles, the thread rows shown for a
    workspace, and the status indicator of a thread. *)

Module Sidebar.

(** The updater handed to [setCollapsedWorkspaces] and
    [setExpandedWorkspaces]: a copy of the set with the entry's id removed
    if it is there, added if not. *)
Definition toggle (entryId : string) (prev : gset string) : gset string :=
  if bool_decide (entryId ∈ prev) then prev ∖ {[entryId]}
  else prev ∪ {[entryId]}.

(** [showThreads = !isCollapsed && threads.length > 0] *)
Definition showThreads {A : Type} (isCollapsed : bool) (threads : list A)
  : bool :=
  negb isCollapsed && (0 <? length threads)%nat.

(** [expanded ? threads : threads.slice(0, 3)] *)
Definition threadRows {A : Type} (expanded : bool) (threads : list A)
  : list A :=
  if expanded then threads else take 3 threads.

(** [threads.length > 3]: whether the button under the rows is rendered. *)
Definition hasMoreButton {A : Type} (threads : list A) : bool :=
  (3 <? length threads)%nat.

(** The number the collapsed button announces:
    [threads.length - 3] in "N more...". *)
Definition hiddenCount {A : Type} (threads : list A) : nat :=
  length threads - 3.

Definition moreLabel {A : Type} (expanded : bool) (threads : list A)
  : string :=
  if expanded then "Show less"
  else pretty (hiddenCount threads) +:+ " more...".

(** The class of the status indicator, from
    [threadStatusById[thread.id]]. *)
Definition threadStatusClass (status : option ThreadStatus) : string :=
  if from_option isReviewing false status then "reviewing"
  else if from_option isProcessing false status then "processing"
  else if from_option hasUnread false status then "unread"
  else "ready".

End Sidebar.

(** ** useTransparencyPreference *)

Module Transparency.

Inductive TransparencyMode := Glass | Blur | Reduced.

(** The string a mode is at run time. *)
Definition modeString (mode : TransparencyMode) : string :=
  match mode with
  | Glass => "glass"
  | Blur => "blur"
  | Reduced => "reduced"
  end.

Definition STORAGE_KEY : string := "transparencyMode".
Definition LEGACY_STORAGE_KEY : string := "reduceTransparency".

(** The type guard [isTransparencyMode]; where it holds, the value is
    returned at the type it is narrowed to. *)
Definition isTransparencyMode (value : option string)
  : option TransparencyMode :=
  match value with
  | Some v =>
      if String.eqb v "glass" then Some Glass
      else if String.eqb v "blur" then Some Blur
      else if String.eqb v "reduced" then Some Reduced
      else None
  | None => None
  end.

Record PreferenceState := {
  mode : TransparencyMode;
  hasStoredPreference : bool;
}.

(** [localStorage] is a map from keys to strings; [getItem] of a missing
    key is [null]. *)
Definition readStoredTransparency (localStorage : gmap string string)
  : PreferenceState :=
  match isTransparencyMode (localStorage !! STORAGE_KEY) with
  | Some stored => {| mode := stored; hasStoredPreference := true |}
  | None =>
      match localStorage !! LEGACY_STORAGE_KEY with
      | Some legacyStored =>
          if String.eqb legacyStored "true"
          then {| mode := Reduced; hasStoredPreference := true |}
          else {| mode := Blur; hasStoredPreference := false |}
      | None => {| mode := Blur; hasStoredPreference := false |}
      end
  end.

(** The effect on [mode]: [localStorage.setItem(STORAGE_KEY, mode)]. *)
Definition persistMode (current : TransparencyMode)
  (localStorage : gmap string string) : gmap string string :=
  <[STORAGE_KEY := modeString current]> localStorage.

Record HookState := {
  preference : PreferenceState;
  glassSupported : option bool;
}.

(** [checkSupport] from the point [isGlassSupported()] settles, with
    [None] for a rejection. [mode] and [hasStoredPreference] are the ones
    of the render the effect belongs to; a later render cancels the
    effect. *)
Definition checkSupport_settled (cancelled : bool) (outcome : option bool)
  (st : HookState) : HookState :=
  match outcome with
  | Some supported =>
      if cancelled then st
      else
        let current := mode (preference st) in
        let stored := hasStoredPreference (preference st) in
        let isGlass := match current with Glass => true | _ => false end in
        let afterFirst :=
          if negb supported && isGlass
          then {| mode := Blur; hasStoredPreference := stored |}
          else preference st in
        let afterSecond :=
          if negb stored && supported && negb isGlass
          then {| mode := Glass; hasStoredPreference := false |}
          else afterFirst in
        {| preference := afterSecond; glassSupported := Some supported |}
  | None =>
      if cancelled then st
      else {| preference := preference st; glassSupported := Some false |}
  end.

Definition setTransparencyMode (next : TransparencyMode) (st : HookState)
  : HookState :=
  {| preference := {| mode := next; hasStoredPreference := true |};
     glassSupported := glassSupported st |}.

Definition availableModes (supported : option bool)
  : list TransparencyMode :=
  if from_option (λ b : bool, b) false supported
  then [Glass; Blur; Reduced]
  else [Blur; Reduced].

End Transparency.

(** ** useModels

    The selection logic of the hook, on the model list as normalized by
    [refreshModels]. *)

Module Models.

(** [activeWorkspace?.id ?? null] and
    [Boolean(activeWorkspace?.connected)] *)
Definition workspaceIdOf (activeWorkspace : option WorkspaceInfo)
  : option string :=
  option_map id activeWorkspace.

Definition isConnected (activeWorkspace : option WorkspaceInfo) : bool :=
  from_option connected false activeWorkspace.

(** The field [description] of a reasoning effort is named
    [effortDescription] here. *)
Record ReasoningEffortOption := {
  reasoningEffort : string;
  effortDescription : string;
}.

Record ModelOption := {
  id : string;
  model : string;
  displayName : string;
  description : string;
  supportedReasoningEfforts : list ReasoningEffortOption;
  defaultReasoningEffort : string;
  isDefault : bool;
}.

Record State := {
  models : list ModelOption;
  selectedModelId : option string;
  selectedEffort : option string;
}.

(** [data.find((model) => model.id === modelId) ?? null]; no id equals
    [null]. *)
Definition findById (modelId : option string) (data : list ModelOption)
  : option ModelOption :=
  match modelId with
  | Some wanted => List.find (λ m, String.eqb (id m) wanted) data
  | None => None
  end.

(** [model.supportedReasoningEfforts.some((effort) =>
    effort.reasoningEffort === wanted)] *)
Definition supports (m : ModelOption) (wanted : string) : bool :=
  existsb (λ effort, String.eqb (reasoningEffort effort) wanted)
    (supportedReasoningEfforts m).

(** [effort && model.supportedReasoningEfforts.some(...)] *)
Definition usable (m : ModelOption) (effort : option string) : bool :=
  match effort with
  | Some (String _ _ as wanted) => supports m wanted
  | _ => false
  end.

(** [selectedModel] *)
Definition selectedModel (st : State) : option ModelOption :=
  findById (selectedModelId st) (models st).

(** [reasoningOptions] *)
Definition reasoningOptions (st : State) : list string :=
  match selectedModel st with
  | Some m => map reasoningEffort (supportedReasoningEfforts m)
  | None => []
  end.

(** [preferredModel ?? data.find((model) => model.isDefault) ?? data[0]
    ?? null] *)
Definition defaultModel (data : list ModelOption) : option ModelOption :=
  match List.find (λ m, String.eqb (model m) "gpt-5.2-codex") data with
  | Some preferredModel => Some preferredModel
  | None =>
      match List.find isDefault data with
      | Some m => Some m
      | None => head data
      end
  end.

(** [existingSelection ?? preferredSelection ?? defaultModel] *)
Definition nextSelection (selected preferredModelId : option string)
  (data : list ModelOption) : option ModelOption :=
  match findById selected data with
  | Some existingSelection => Some existingSelection
  | None =>
      match findById preferredModelId data with
      | Some preferredSelection => Some preferredSelection
      | None => defaultModel data
      end
  end.

(** [nextEffort] of [refreshModels]. *)
Definition nextEffort (selected preferredEffort : option string)
  (next : ModelOption) : option string :=
  if usable next selected then selected
  else if usable next preferredEffort then preferredEffort
  else Some (defaultReasoningEffort next).

(** [refreshModels] from [setModels(data)] on. [selected] and
    [selectedEffortThen] are the [selectedModelId] and [selectedEffort]
    the callback closed over. *)
Definition refreshModels_settled
  (preferredModelId preferredEffort selected selectedEffortThen
     : option string)
  (data : list ModelOption) (st : State) : State :=
  match nextSelection selected preferredModelId data with
  | Some next =>
      {| models := data;
         selectedModelId := Some (id next);
         selectedEffort :=
           nextEffort selectedEffortThen preferredEffort next |}
  | None =>
      {| models := data;
         selectedModelId := selectedModelId st;
         selectedEffort := selectedEffort st |}
  end.

(** The effect on [selectedEffort] and [selectedModel]: an effort the
    selected model does not support gives way to the model's default. *)
Definition effortEffect (st : State) : State :=
  match selectedModel st with
  | None => st
  | Some m =>
      if usable m (selectedEffort st) then st
      else {| models := models st;
              selectedModelId := selectedModelId st;
              selectedEffort := Some (defaultReasoningEffort m) |}
  end.

(** The hook's state together with its two refs and the
    [getModelList] calls made so far. *)
Record Session := {
  state : State;
  inFlight : bool;
  lastFetchedWorkspaceId : option string;
  requests : list string;
}.

(** [refreshModels] up to its [await]. *)
Definition refreshModels (activeWorkspace : option WorkspaceInfo)
  (s : Session) : Session :=
  match workspaceIdOf activeWorkspace with
  | Some (String _ _ as workspaceId) =>
      if negb (isConnected activeWorkspace) then s
      else if inFlight s then s
      else {| state := state s;
              inFlight := true;
              lastFetchedWorkspaceId := lastFetchedWorkspaceId s;
              requests := requests s ++ [workspaceId] |}
  | _ => s
  end.

(** [refreshModels] from the point [getModelList] settles; [outcome] is
    the normalized list, or [None] when the call rejects. *)
Definition refreshModels_done (workspaceId : string)
  (preferredModelId preferredEffort selected selectedEffortThen
     : option string)
  (outcome : option (list ModelOption)) (s : Session) : Session :=
  match outcome with
  | Some data =>
      {| state :=
           refreshModels_settled preferredModelId preferredEffort selected
             selectedEffortThen data (state s);
         inFlight := false;
         lastFetchedWorkspaceId := Some workspaceId;
         requests := requests s |}
  | None =>
      {| state := state s;
         inFlight := false;
         lastFetchedWorkspaceId := lastFetchedWorkspaceId s;
         requests := requests s |}
  end.

(** The effect that fetches the list of a workspace. *)
Definition fetchEffect (activeWorkspace : option WorkspaceInfo)
  (s : Session) : Session :=
  match workspaceIdOf activeWorkspace with
  | Some (String _ _ as workspaceId) =>
      if negb (isConnected activeWorkspace) then s
      else if bool_decide (lastFetchedWorkspaceId s = Some workspaceId)
              && (0 <? length (models (state s)))%nat
      then s
      else refreshModels activeWorkspace s
  | _ => s
  end.

End Models.

(** ** useLiquidGlassEffect *)

Module LiquidGlass.

(** The calls [apply] makes on the window and the glass plugin. *)
Inductive Command :=
| QueryGlassSupport
| DisableLiquidGlass
| ClearWindowEffects
| EnableLiquidGlass (cornerRadius : Z)
| HudWindowEffect (radius : Z).

(** [haystack.includes(needle)] *)
Fixpoint includes (needle haystack : string) : bool :=
  String.prefix needle haystack
  || match haystack with
     | EmptyString => false
     | String _ rest => includes needle rest
     end.

(** One run of [apply] in which no call throws. [supportedRef] is the
    ref before the run, [answer] what [isGlassSupported()] resolves to if
    asked, and [cancelled] the flag as read after that. The result is the
    ref after the run and the calls made, in order. *)
Definition apply (supportedRef : option bool) (answer cancelled : bool)
  (transparencyMode : Transparency.TransparencyMode)
  (userAgent : option string) : option bool * list Command :=
  let query :=
    match supportedRef with None => [QueryGlassSupport] | Some _ => [] end in
  let supported := default answer supportedRef in
  let isGlass :=
    match transparencyMode with Transparency.Glass => true | _ => false end in
  let isReduced :=
    match transparencyMode with
    | Transparency.Reduced => true
    | _ => false
    end in
  if cancelled then (Some supported, query)
  else
    let disable :=
      if supported && negb isGlass then [DisableLiquidGlass] else [] in
    let agent := default "" userAgent in
    let isMac := includes "Macintosh" agent in
    let isLinux := includes "Linux" agent in
    (Some supported,
     query ++ disable
       ++ (if isReduced then [ClearWindowEffects]
           else if supported && isGlass
           then [ClearWindowEffects; EnableLiquidGlass 16]
           else if negb isMac && negb isLinux then []
           else [HudWindowEffect 16])).

End LiquidGlass.

(** ** Sample inputs *)

Definition ws1 : WorkspaceInfo :=
  {| id := "ws1"; name := "Workspace"; connected := true |}.

Definition props1 : Props unit :=
  {| activeWorkspace := Some ws1;
     activeThreadId := Some "t1";
     accessMode := JUndefined;
     model := JUndefined;
     effort := JUndefined;
     collaborationMode := JUndefined;
     steerEnabled := false;
     customPrompts := [];
     onDebug := true;
     getCustomName := λ _ _, None |}.

Definition propsNoThread : Props unit :=
  {| activeWorkspace := Some ws1;
     activeThreadId := None;
     accessMode := JUndefined;
     model := JUndefined;
     effort := JUndefined;
     collaborationMode := JUndefined;
     steerEnabled := false;
     customPrompts := [];
     onDebug := true;
     getCustomName := λ _ _, None |}.

Definition noExpansion (text : string) (prompts : list unit)
  : PromptExpansion := NoExpansion.

Definition clock1 : Clock :=
  {| nowAtItem := 1700000000000; randomSuffix := "k3x9qa";
     timestamp := 1700000000001 |}.

(** [{ result: { turn: { id } } }] *)
Definition turnStartResponse (turnId : string) : JValue :=
  JObj [("result", JObj [("turn", JObj [("id", JStr turnId)])])].

(** A world in which thread t1 waits with an interrupt pending. *)
Definition pendingWorld : World :=
  {| store := emptyStore; pendingInterrupts := {["t1"]}; effects := [] |}.

Definition sampleParseReviewTarget (text : string) : JValue :=
  JObj [("type", JStr "custom"); ("instructions", JStr text)].

(** Thread t1 after a review was started and then interrupted, and after
    a review was started and then completed. *)
Definition reviewInterrupted : World :=
  run noExpansion sampleParseReviewTarget emptyWorld
    [CallStartReview props1 "diff HEAD~1" (Some "t1");
     CallInterruptTurn props1].

Definition reviewCompleted : World :=
  run noExpansion sampleParseReviewTarget emptyWorld
    [CallStartReview props1 "diff HEAD~1" (Some "t1");
     TurnStarted "ws1" "t1" "turn-1";
     TurnCompleted "ws1" "t1" "turn-1"].

(** A review that runs into a terminal turn error. *)
Definition reviewFailing : list (Event unit) :=
  [CallStartReview props1 "diff HEAD~1" (Some "t1");
   TurnStarted "ws1" "t1" "turn-1";
   TurnError "ws1" "t1" "turn-1" "rate limited" false].

(** The interrupt-before-start race on thread t1: the message is sent,
    the user interrupts, the start RPC resolves with turn-1, and
    turn-started arrives. *)
Definition raceSettledFirst : World :=
  run noExpansion sampleParseReviewTarget emptyWorld
    [CallSendMessageToThread props1 ws1 "t1" "hello" [] None clock1;
     CallInterruptTurn props1;
     SettleStartTurn props1 "t1" (Resolved (turnStartResponse "turn-1"));
     TurnStarted "ws1" "t1" "turn-1"].

(** The same race with turn-started handled while the start RPC is
    still in flight. *)
Definition raceStartedFirst : World :=
  run noExpansion sampleParseReviewTarget emptyWorld
    [CallSendMessageToThread props1 ws1 "t1" "hello" [] None clock1;
     CallInterruptTurn props1;
     TurnStarted "ws1" "t1" "turn-1"].

(** Thread t1 after one turn-completed: its entries exist in the store and
    it is idle. *)
Definition completedWorld : World :=
  exec (onTurnCompleted "ws1" "t1" "turn-1") emptyWorld.

(** ** Further sample inputs *)



(** Thread t1 with turn-1 running. *)
Definition processingWorld : World :=
  exec (onTurnStarted "ws1" "t1" "turn-1") emptyWorld.

Definition sampleEfforts : list Models.ReasoningEffortOption :=
  [{| Models.reasoningEffort := "low"; Models.effortDescription := "" |};
   {| Models.reasoningEffort := "high"; Models.effortDescription := "" |}].

Definition sampleModels : list Models.ModelOption :=
  [{| Models.id := "m1"; Models.model := "gpt-5.1";
      Models.displayName := "GPT 5.1"; Models.description := "";
      Models.supportedReasoningEfforts := sampleEfforts;
      Models.defaultReasoningEffort := "low"; Models.isDefault := true |};
   {| Models.id := "m2"; Models.model := "gpt-5.2-codex";
      Models.displayName := "Codex"; Models.description := "";
      Models.supportedReasoningEfforts := sampleEfforts;
      Models.defaultReasoningEffort := "high";
      Models.isDefault := false |}].

Definition noModels : Models.State :=
  {| Models.models := []; Models.selectedModelId := None;
     Models.selectedEffort := None |}.

(** * Properties *)

(** ** Reads after writes in the store *)

Section StoreLemmas.

Implicit Types (s : ThreadState) (threadId other : string).

Lemma statusOf_markProcessing s threadId flag other :
  statusOf (reduce_markProcessing threadId flag s) other =
    if decide (threadId = other)
    then {| isProcessing := flag;
            hasUnread := hasUnread (statusOf s threadId);
            isReviewing := isReviewing (statusOf s threadId) |}
    else statusOf s other.
Proof.
  unfold statusOf at 1; simpl. rewrite lookup_insert.
  destruct (decide (threadId = other)); reflexivity.
Qed.

Lemma statusOf_markReviewing s threadId flag other :
  statusOf (reduce_markReviewing threadId flag s) other =
    if decide (threadId = other)
    then {| isProcessing := isProcessing (statusOf s threadId);
            hasUnread := hasUnread (statusOf s threadId);
            isReviewing := flag |}
    else statusOf s other.
Proof.
  unfold statusOf at 1; simpl. rewrite lookup_insert.
  destruct (decide (threadId = other)); reflexivity.
Qed.

Lemma statusOf_ensureThread s workspaceId threadId other :
  statusOf (reduce_ensureThread workspaceId threadId s) other =
    statusOf s other.
Proof. unfold reduce_ensureThread. case_decide; reflexivity. Qed.

Lemma activeTurnIdOf_ensureThread s workspaceId threadId other :
  activeTurnIdOf (reduce_ensureThread workspaceId threadId s) other =
    activeTurnIdOf s other.
Proof. unfold reduce_ensureThread. case_decide; reflexivity. Qed.

Lemma activeTurnIdByThread_ensureThread s workspaceId threadId :
  activeTurnIdByThread (reduce_ensureThread workspaceId threadId s) =
    activeTurnIdByThread s.
Proof. unfold reduce_ensureThread. case_decide; reflexivity. Qed.

Lemma itemsOf_ensureThread s workspaceId threadId other :
  itemsOf (reduce_ensureThread workspaceId threadId s) other =
    itemsOf s other.
Proof. unfold reduce_ensureThread. case_decide; reflexivity. Qed.

Lemma activeTurnIdOf_setActiveTurnId s threadId turnId other :
  activeTurnIdOf (reduce_setActiveTurnId threadId turnId s) other =
    if decide (threadId = other) then turnId else activeTurnIdOf s other.
Proof.
  unfold activeTurnIdOf at 1; simpl. rewrite lookup_insert.
  destruct (decide (threadId = other)); reflexivity.
Qed.

Lemma itemsOf_addAssistantMessage s threadId text other :
  itemsOf (reduce_addAssistantMessage threadId text s) other =
    if decide (threadId = other)
    then itemsOf s threadId ++ [assistantMessage text]
    else itemsOf s other.
Proof.
  unfold itemsOf at 1; simpl. rewrite lookup_insert.
  destruct (decide (threadId = other)); reflexivity.
Qed.

Lemma itemsOf_upsertItem s threadId item other :
  itemsOf (reduce_upsertItem threadId item s) other =
    if decide (threadId = other)
    then upsert item (itemsOf s threadId)
    else itemsOf s other.
Proof.
  unfold itemsOf at 1; simpl. rewrite lookup_insert.
  destruct (decide (threadId = other)); reflexivity.
Qed.

(** Each mutation leaves the other components alone. *)
Lemma statusOf_setActiveTurnId s threadId turnId other :
  statusOf (reduce_setActiveTurnId threadId turnId s) other =
    statusOf s other.
Proof. reflexivity. Qed.

Lemma statusOf_addAssistantMessage s threadId text other :
  statusOf (reduce_addAssistantMessage threadId text s) other =
    statusOf s other.
Proof. reflexivity. Qed.

Lemma statusOf_upsertItem s threadId item other :
  statusOf (reduce_upsertItem threadId item s) other = statusOf s other.
Proof. reflexivity. Qed.

Lemma statusOf_setThreadTimestamp s threadId timestamp other :
  statusOf (reduce_setThreadTimestamp threadId timestamp s) other =
    statusOf s other.
Proof. reflexivity. Qed.

Lemma activeTurnIdOf_markProcessing s threadId flag other :
  activeTurnIdOf (reduce_markProcessing threadId flag s) other =
    activeTurnIdOf s other.
Proof. reflexivity. Qed.

Lemma activeTurnIdOf_markReviewing s threadId flag other :
  activeTurnIdOf (reduce_markReviewing threadId flag s) other =
    activeTurnIdOf s other.
Proof. reflexivity. Qed.

Lemma activeTurnIdOf_addAssistantMessage s threadId text other :
  activeTurnIdOf (reduce_addAssistantMessage threadId text s) other =
    activeTurnIdOf s other.
Proof. reflexivity. Qed.

Lemma activeTurnIdOf_upsertItem s threadId item other :
  activeTurnIdOf (reduce_upsertItem threadId item s) other =
    activeTurnIdOf s other.
Proof. reflexivity. Qed.

Lemma activeTurnIdOf_setThreadTimestamp s threadId timestamp other :
  activeTurnIdOf (reduce_setThreadTimestamp threadId timestamp s) other =
    activeTurnIdOf s other.
Proof. reflexivity. Qed.

Lemma itemsOf_markProcessing s threadId flag other :
  itemsOf (reduce_markProcessing threadId flag s) other = itemsOf s other.
Proof. reflexivity. Qed.

Lemma itemsOf_markReviewing s threadId flag other :
  itemsOf (reduce_markReviewing threadId flag s) other = itemsOf s other.
Proof. reflexivity. Qed.

Lemma itemsOf_setActiveTurnId s threadId turnId other :
  itemsOf (reduce_setActiveTurnId threadId turnId s) other =
    itemsOf s other.
Proof. reflexivity. Qed.

Lemma itemsOf_setThreadTimestamp s threadId timestamp other :
  itemsOf (reduce_setThreadTimestamp threadId timestamp s) other =
    itemsOf s other.
Proof. reflexivity. Qed.

(** ensure-thread-exists does what its name says, and is idempotent. *)
Lemma threadExists_ensureThread s workspaceId threadId :
  threadExists (reduce_ensureThread workspaceId threadId s)
    workspaceId threadId.
Proof.
  unfold threadExists, reduce_ensureThread.
  case_decide as Hin; [exact Hin |].
  unfold threadsOf at 1; simpl. rewrite lookup_insert_eq; simpl.
  apply elem_of_app; right. apply list_elem_of_singleton. reflexivity.
Qed.

Lemma reduce_ensureThread_idempotent s workspaceId threadId :
  reduce_ensureThread workspaceId threadId
    (reduce_ensureThread workspaceId threadId s) =
  reduce_ensureThread workspaceId threadId s.
Proof.
  pose proof (threadExists_ensureThread s workspaceId threadId) as Hin.
  unfold threadExists in Hin.
  unfold reduce_ensureThread at 1. rewrite decide_True by exact Hin.
  reflexivity.
Qed.

End StoreLemmas.

Create Rewrite HintDb store.

#[local] Hint Rewrite statusOf_markProcessing statusOf_markReviewing
  statusOf_ensureThread activeTurnIdOf_ensureThread
  activeTurnIdByThread_ensureThread itemsOf_ensureThread
  activeTurnIdOf_setActiveTurnId itemsOf_addAssistantMessage
  itemsOf_upsertItem
  statusOf_setActiveTurnId statusOf_addAssistantMessage statusOf_upsertItem
  statusOf_setThreadTimestamp
  activeTurnIdOf_markProcessing activeTurnIdOf_markReviewing
  activeTurnIdOf_addAssistantMessage activeTurnIdOf_upsertItem
  activeTurnIdOf_setThreadTimestamp
  itemsOf_markProcessing itemsOf_markReviewing itemsOf_setActiveTurnId
  itemsOf_setThreadTimestamp : store.

(** Unfolds a hook down to the reducers it dispatches. *)
Ltac run_hook :=
  cbv [exec result step run fold_left
       onTurnStarted onTurnCompleted onTurnError
       interruptTurn interruptTurn_settled
       sendMessageToThread_settled startReview startReview_settled
       markProcessing markReviewing setActiveTurnId pushThreadErrorMessage
       safeMessageActivity recordThreadActivity debug when
       dispatch emit pendingHas pendingAdd pendingDelete readStore
       threadReducer mbind mret M_bind M_ret fst snd
       processing reviewing activeTurn items];
  cbn [store pendingInterrupts effects].

Ltac split_ifs :=
  repeat match goal with
         | |- context [if ?c then _ else _] => destruct c eqn:?
         end.

(** Closes a goal on the status of [threadId] after mutations aimed at
    [target]. *)
Ltac finish_status target threadId :=
  cbn [store]; autorewrite with store;
  destruct (decide (target = threadId)) as [<- |];
  rewrite ?decide_True by reflexivity;
  cbn [isProcessing isReviewing hasUnread];
  first [ left; reflexivity
        | right; left; reflexivity
        | right; right; reflexivity ].

Ltac store_simpl :=
  unfold processing, reviewing, activeTurn, items;
  cbn [store pendingInterrupts effects];
  autorewrite with store;
  cbn [isProcessing isReviewing hasUnread].

(** ** Turn events *)

(** C6 (retry suppression, P4): a turn-error event with willRetry = true
    leaves the whole world as it was: the store (so isProcessing,
    isReviewing, the active turn id and the item sequence of every
    thread), the pending-interrupt set and the trace of effects. *)
Theorem onTurnError_willRetry_no_change
  (workspaceId threadId turnId message : string) (w : World) :
  exec (onTurnError workspaceId threadId turnId message true) w = w
  ∧ (∀ other,
       processing (exec (onTurnError workspaceId threadId turnId message
                           true) w) other = processing w other
       ∧ reviewing (exec (onTurnError workspaceId threadId turnId message
                            true) w) other = reviewing w other
       ∧ activeTurn (exec (onTurnError workspaceId threadId turnId message
                             true) w) other = activeTurn w other
       ∧ items (exec (onTurnError workspaceId threadId turnId message
                        true) w) other = items w other)
  ∧ pendingInterrupts
      (exec (onTurnError workspaceId threadId turnId message true) w) =
    pendingInterrupts w.
Proof.
  assert (exec (onTurnError workspaceId threadId turnId message true) w = w)
    as Heq by (destruct w; reflexivity).
  rewrite Heq. repeat split.
Qed.

(** C5: a turn-error event with willRetry = false ensures the thread
    exists, sets processing and reviewing to false, clears the active
    turn id and appends "Turn failed: <message>", or "Turn failed." when
    the message is empty. *)
Theorem onTurnError_terminal
  (workspaceId threadId turnId message : string) (w : World) :
  let w' := exec (onTurnError workspaceId threadId turnId message false) w in
  threadExists (store w') workspaceId threadId
  ∧ processing w' threadId = false
  ∧ reviewing w' threadId = false
  ∧ activeTurn w' threadId = None
  ∧ (message ≠ "" →
     items w' threadId =
       items w threadId ++ [assistantMessage ("Turn failed: " +:+ message)])
  ∧ (message = "" →
     items w' threadId =
       items w threadId ++ [assistantMessage "Turn failed."]).
Proof.
  run_hook. repeat split.
  - unfold threadExists, threadsOf; simpl.
    apply (threadExists_ensureThread (store w)).
  - store_simpl. rewrite !decide_True by reflexivity. reflexivity.
  - store_simpl. rewrite !decide_True by reflexivity. reflexivity.
  - store_simpl. rewrite !decide_True by reflexivity. reflexivity.
  - intros Hmsg. store_simpl. rewrite !decide_True by reflexivity.
    destruct message; [congruence | reflexivity].
  - intros ->. store_simpl. rewrite !decide_True by reflexivity.
    reflexivity.
Qed.

(** C7 (idempotent completion, P3): whatever the state before, handling
    turn-completed leaves the thread not processing, without active turn
    id and out of the pending-interrupt set. On a thread that is already
    idle the resulting world answers every read as the prior one did, and
    is the prior world itself once the thread's status and turn-id
    entries exist in the store; handling the same completion twice equals
    handling it once. *)
Theorem onTurnCompleted_idempotent
  (workspaceId threadId turnId : string) (w : World) :
  let w' := exec (onTurnCompleted workspaceId threadId turnId) w in
  (processing w' threadId = false
   ∧ activeTurn w' threadId = None
   ∧ threadId ∉ pendingInterrupts w')
  ∧ (idle w threadId → sameView w' w)
  ∧ (idle w threadId →
     is_Some (threadStatusById (store w) !! threadId) →
     is_Some (activeTurnIdByThread (store w) !! threadId) →
     w' = w)
  ∧ exec (onTurnCompleted workspaceId threadId turnId) w' = w'.
Proof.
  run_hook. split; [| split; [| split]].
  - store_simpl. rewrite !decide_True by reflexivity.
    repeat split. set_solver.
  - intros (Hproc & Hturn & Hpend).
    unfold processing, activeTurn in Hproc, Hturn.
    unfold sameView; cbn [store pendingInterrupts effects].
    split; [| split; [| repeat split]].
    + intros other. autorewrite with store.
      destruct (decide (threadId = other)) as [<- |]; [| reflexivity].
      rewrite <- Hproc. destruct (statusOf (store w) threadId); reflexivity.
    + intros other. autorewrite with store.
      destruct (decide (threadId = other)) as [<- |]; [| reflexivity].
      symmetry; exact Hturn.
    + set_solver.
  - intros (Hproc & Hturn & Hpend) [st Hst] [tid Htid].
    unfold processing, activeTurn, statusOf, activeTurnIdOf in Hproc, Hturn.
    destruct w as [[tw it ts at_ tt] pend eff]; simpl in *.
    rewrite Hst in Hproc; rewrite Htid in Hturn; simpl in *; subst tid.
    f_equal.
    + unfold reduce_setActiveTurnId, reduce_markProcessing, statusOf; simpl.
      rewrite Hst; simpl. f_equal.
      * apply insert_id. rewrite Hst. destruct st; simpl in *; subst.
        reflexivity.
      * apply insert_id. exact Htid.
    + set_solver.
  - destruct w as [[tw it ts at_ tt] pend eff].
    unfold reduce_setActiveTurnId, reduce_markProcessing, statusOf; simpl.
    rewrite lookup_insert_eq; simpl.
    f_equal; [f_equal; apply insert_insert_eq | set_solver].
Qed.

(** C9: a turn-started event whose turn id is the empty string. With the
    thread in the pending-interrupt set, the entry is removed and no
    interrupt RPC (no effect at all) is issued; otherwise processing is
    set to true and the active turn ids are left exactly as they were, so
    a thread with no active turn recorded stays so. *)
Theorem onTurnStarted_empty_turn_id
  (workspaceId threadId : string) (w : World) :
  let w' := exec (onTurnStarted workspaceId threadId "") w in
  (threadId ∈ pendingInterrupts w →
     pendingInterrupts w' = (pendingInterrupts w ∖ {[threadId]})
     ∧ (threadId ∉ pendingInterrupts w')
     ∧ effects w' = effects w
     ∧ interruptCalls w' = interruptCalls w)
  ∧ (threadId ∉ pendingInterrupts w →
     processing w' threadId = true
     ∧ activeTurnIdByThread (store w') = activeTurnIdByThread (store w)
     ∧ activeTurn w' threadId = activeTurn w threadId
     ∧ (activeTurn w threadId = None → activeTurn w' threadId = None)
     ∧ pendingInterrupts w' = pendingInterrupts w
     ∧ effects w' = effects w).
Proof.
  run_hook. split; intros Hpend.
  - rewrite bool_decide_eq_true_2 by exact Hpend.
    cbn [pendingInterrupts effects]. unfold interruptCalls.
    cbn [effects]. repeat split. set_solver.
  - rewrite bool_decide_eq_false_2 by exact Hpend.
    cbn [store pendingInterrupts effects truthyStr].
    assert (activeTurnIdOf
              (reduce_markProcessing threadId true
                 (reduce_ensureThread workspaceId threadId (store w)))
              threadId = activeTurnIdOf (store w) threadId) as Hturn
      by (autorewrite with store; reflexivity).
    repeat split.
    + autorewrite with store. rewrite decide_True by reflexivity.
      reflexivity.
    + cbn [reduce_markProcessing activeTurnIdByThread].
      apply activeTurnIdByThread_ensureThread.
    + exact Hturn.
    + intros Hnone. rewrite Hturn. exact Hnone.
Qed.

(** ** interruptTurn *)

(** C10: with no active workspace or no active thread selected,
    interruptTurn returns at once: the world (processing flags, active
    turn ids, item sequences, pending-interrupt set) is unchanged and no
    interrupt RPC is issued. *)
Theorem interruptTurn_without_selection
  {P : Type} (props : Props P) (w : World) :
  activeWorkspace props = None ∨ activeThreadId props = None →
  interruptTurn props w = (false, w)
  ∧ exec (interruptTurn props) w = w
  ∧ interruptCalls (exec (interruptTurn props) w) = interruptCalls w.
Proof.
  intros Hnone.
  assert (interruptTurn props w = (false, w)) as Heq.
  { unfold interruptTurn.
    destruct Hnone as [-> | ->]; [reflexivity |].
    destruct (activeWorkspace props); reflexivity. }
  unfold exec. rewrite Heq. repeat split.
Qed.

(** What interruptTurn does once a workspace and a thread are selected:
    the local "stopped" state is applied at once and the interrupt RPC is
    issued with the known turn id, or with the placeholder "pending". *)
Lemma interruptTurn_selected
  {P : Type} (props : Props P) (workspace : WorkspaceInfo)
  (threadId : string) (w : World) :
  activeWorkspace props = Some workspace →
  activeThreadId props = Some threadId →
  threadId ≠ "" →
  let w' := exec (interruptTurn props) w in
  result (interruptTurn props) w = true
  ∧ store w' =
      reduce_addAssistantMessage threadId "Session stopped."
        (reduce_setActiveTurnId threadId None
           (reduce_markProcessing threadId false (store w)))
  ∧ pendingInterrupts w' =
      (if from_option truthyStr false (activeTurn w threadId)
       then pendingInterrupts w
       else {[threadId]} ∪ pendingInterrupts w)
  ∧ effects w' =
      effects w
        ++ (if onDebug props then [DebugEntry "client" "turn/interrupt"]
            else [])
        ++ [InterruptTurnRpc (id workspace) threadId
              (default "pending" (activeTurn w threadId))].
Proof.
  intros Hws Hth Hne. unfold interruptTurn. rewrite Hws, Hth.
  destruct threadId as [| c rest]; [congruence |].
  run_hook. unfold activeTurn.
  destruct (from_option truthyStr false
              (activeTurnIdOf (store w) (String c rest)));
    destruct (onDebug props); cbn [negb store pendingInterrupts effects];
    rewrite <- ?app_assoc; repeat split.
Qed.

Lemma interruptCalls_app (w : World) (more : list Effect) :
  interruptCalls
    {| store := store w; pendingInterrupts := pendingInterrupts w;
       effects := effects w ++ more |} =
  interruptCalls w ++ omap interruptCallOf more.
Proof. unfold interruptCalls; simpl. apply omap_app. Qed.

Lemma interruptCalls_effects (w w' : World) (more : list Effect) :
  effects w' = effects w ++ more →
  interruptCalls w' = interruptCalls w ++ omap interruptCallOf more.
Proof. unfold interruptCalls. intros ->. apply omap_app. Qed.

(** interruptTurn on a thread whose turn id is not known yet. *)
Lemma interruptTurn_unknown_turn
  {P : Type} (props : Props P) (workspace : WorkspaceInfo)
  (threadId : string) (w : World) :
  activeWorkspace props = Some workspace →
  activeThreadId props = Some threadId →
  threadId ≠ "" →
  activeTurn w threadId = None →
  let w' := exec (interruptTurn props) w in
  pendingInterrupts w' = {[threadId]} ∪ pendingInterrupts w
  ∧ processing w' threadId = false
  ∧ activeTurn w' threadId = None
  ∧ items w' threadId =
      items w threadId ++ [assistantMessage "Session stopped."]
  ∧ interruptCalls w' =
      interruptCalls w ++ [(id workspace, threadId, "pending")].
Proof.
  intros Hws Hth Hne Hturn.
  destruct (interruptTurn_selected props workspace threadId w Hws Hth Hne)
    as (_ & Hstore & Hpend & Heff).
  rewrite Hturn in Hpend, Heff. cbn [from_option default] in Hpend, Heff.
  cbv zeta. split; [| split; [| split; [| split]]].
  - exact Hpend.
  - unfold processing. rewrite Hstore. autorewrite with store.
    rewrite decide_True by reflexivity. reflexivity.
  - unfold activeTurn. rewrite Hstore. autorewrite with store.
    rewrite decide_True by reflexivity. reflexivity.
  - unfold items. rewrite Hstore. autorewrite with store.
    rewrite decide_True by reflexivity. reflexivity.
  - rewrite (interruptCalls_effects _ _ _ Heff), omap_app.
    destruct (onDebug props); reflexivity.
Qed.

(** C2, as amended: when interruptTurn runs on the active thread and no
    turn id is known for it, the thread id is recorded in the
    pending-interrupt set, the thread is set to not-processing at once
    and "Session stopped." is appended; the interrupt RPC is issued all
    the same, carrying the placeholder turn id "pending". *)
Theorem interruptTurn_without_turn_id
  {P : Type} (props : Props P) (workspace : WorkspaceInfo)
  (threadId : string) (w : World) :
  activeWorkspace props = Some workspace →
  activeThreadId props = Some threadId →
  threadId ≠ "" →
  activeTurn w threadId = None →
  let w' := exec (interruptTurn props) w in
  threadId ∈ pendingInterrupts w'
  ∧ processing w' threadId = false
  ∧ activeTurn w' threadId = None
  ∧ items w' threadId =
      items w threadId ++ [assistantMessage "Session stopped."]
  ∧ interruptCalls w' =
      interruptCalls w ++ [(id workspace, threadId, "pending")].
Proof.
  intros Hws Hth Hne Hturn.
  destruct (interruptTurn_unknown_turn props workspace threadId w
              Hws Hth Hne Hturn) as (Hpend & Hrest).
  cbv zeta. split; [| exact Hrest].
  rewrite Hpend. set_solver.
Qed.

(** C8: interrupt is fire-and-forget. When the interrupt RPC issued by
    interruptTurn rejects, the callback only logs: the store and the
    pending-interrupt set are as interruptTurn left them, so the thread
    is still not processing, has no active turn id, and "Session
    stopped." is still the last item; whenever the rejection is handled,
    it changes nothing but the debug log. *)
Theorem interruptTurn_failure_not_reverted
  {P : Type} (props : Props P) (workspace : WorkspaceInfo)
  (threadId : string) (error : Thrown) (w : World) :
  activeWorkspace props = Some workspace →
  activeThreadId props = Some threadId →
  threadId ≠ "" →
  let w1 := exec (interruptTurn props) w in
  let w2 := exec (interruptTurn_settled props (Rejected error)) w1 in
  result (interruptTurn props) w = true
  ∧ store w2 = store w1
  ∧ pendingInterrupts w2 = pendingInterrupts w1
  ∧ effects w2 =
      effects w1
        ++ (if onDebug props then [DebugEntry "error" "turn/interrupt error"]
            else [])
  ∧ interruptCalls w2 = interruptCalls w1
  ∧ processing w2 threadId = false
  ∧ activeTurn w2 threadId = None
  ∧ items w2 threadId =
      items w threadId ++ [assistantMessage "Session stopped."]
  ∧ (∀ later,
       store (exec (interruptTurn_settled props (Rejected error)) later) =
         store later
       ∧ pendingInterrupts
           (exec (interruptTurn_settled props (Rejected error)) later) =
         pendingInterrupts later
       ∧ interruptCalls
           (exec (interruptTurn_settled props (Rejected error)) later) =
         interruptCalls later).
Proof.
  intros Hws Hth Hne.
  destruct (interruptTurn_selected props workspace threadId w Hws Hth Hne)
    as (Hres & Hstore & _ & _).
  assert (∀ later,
            store (exec (interruptTurn_settled props (Rejected error)) later)
              = store later
            ∧ pendingInterrupts
                (exec (interruptTurn_settled props (Rejected error)) later)
              = pendingInterrupts later
            ∧ effects
                (exec (interruptTurn_settled props (Rejected error)) later)
              = effects later
                  ++ (if onDebug props
                      then [DebugEntry "error" "turn/interrupt error"]
                      else [])) as Hframe.
  { intros later. run_hook.
    destruct (onDebug props); cbn [store pendingInterrupts effects];
      rewrite ?app_nil_r; repeat split. }
  assert (∀ later,
            interruptCalls
              (exec (interruptTurn_settled props (Rejected error)) later)
            = interruptCalls later) as Hcalls.
  { intros later. destruct (Hframe later) as (_ & _ & Heff).
    rewrite (interruptCalls_effects _ _ _ Heff).
    destruct (onDebug props); simpl; apply app_nil_r. }
  cbv zeta.
  destruct (Hframe (exec (interruptTurn props) w)) as (Hs & Hp & He).
  split; [exact Hres |]. split; [exact Hs |]. split; [exact Hp |].
  split; [exact He |]. split; [apply Hcalls |].
  split; [| split; [| split]].
  - unfold processing. rewrite Hs, Hstore. autorewrite with store.
    rewrite decide_True by reflexivity. reflexivity.
  - unfold activeTurn. rewrite Hs, Hstore. autorewrite with store.
    rewrite decide_True by reflexivity. reflexivity.
  - unfold items. rewrite Hs, Hstore. autorewrite with store.
    rewrite decide_True by reflexivity. reflexivity.
  - intros later. destruct (Hframe later) as (Hs' & Hp' & _).
    split; [exact Hs' |]. split; [exact Hp' | apply Hcalls].
Qed.

(** ** sendMessageToThread *)

Lemma truthy_embeddedError (response : JValue) :
  truthy (embeddedError response) = hasEmbeddedError response.
Proof.
  unfold embeddedError, hasEmbeddedError.
  destruct (truthy (prop response "error")) eqn:Htop; [exact Htop |].
  reflexivity.
Qed.

Lemma errorText_truthy (error : JValue) :
  truthy error = true → truthyStr (errorText error) = true.
Proof.
  intros Herr. unfold errorText.
  destruct error; try discriminate; try exact Herr;
    destruct (truthyStr (asString _)) eqn:Hmsg; try exact Hmsg; reflexivity.
Qed.

Lemma extractRpcErrorMessage_embedded (response : JValue) :
  hasEmbeddedError response = true →
  ∃ c rest,
    extractRpcErrorMessage response = Some (String c rest)
    ∧ errorText (embeddedError response) = String c rest.
Proof.
  intros Herr. rewrite <- truthy_embeddedError in Herr.
  unfold extractRpcErrorMessage. rewrite Herr.
  pose proof (errorText_truthy _ Herr) as Htext.
  destruct (errorText (embeddedError response)) as [| c rest];
    [discriminate |].
  exists c, rest. split; reflexivity.
Qed.

Lemma extractRpcErrorMessage_clean (response : JValue) :
  hasEmbeddedError response = false →
  extractRpcErrorMessage response = None.
Proof.
  intros Herr. rewrite <- truthy_embeddedError in Herr.
  unfold extractRpcErrorMessage. rewrite Herr. reflexivity.
Qed.

(** A response of the contract's shape [{ result: { turn: { id } } }]
    carries its turn id. *)
Lemma responseTurnId_result_turn (response : JValue) (turnId : string) :
  prop (prop (prop response "result") "turn") "id" = JStr turnId →
  responseTurnId response = turnId.
Proof.
  unfold responseTurnId. intros Hid.
  destruct (prop response "result") as [| | | | | fields |] eqn:Hresult;
    try discriminate.
  cbn [coalesce nullish].
  destruct (prop (JObj fields) "turn") as [| | | | | turn |] eqn:Hturn;
    try discriminate.
  cbn [coalesce nullish]. rewrite Hid. reflexivity.
Qed.

(** The failure path shared by the three ways a start-turn RPC fails. *)
Lemma startTurn_reverted (s : ThreadState) (threadId text : string) :
  let s' :=
    reduce_addAssistantMessage threadId text
      (reduce_setActiveTurnId threadId None
         (reduce_markProcessing threadId false s)) in
  isProcessing (statusOf s' threadId) = false
  ∧ activeTurnIdOf s' threadId = None
  ∧ itemsOf s' threadId = itemsOf s threadId ++ [assistantMessage text].
Proof.
  cbv zeta. autorewrite with store. rewrite !decide_True by reflexivity.
  repeat split.
Qed.

(** C4 (sendMessage reconciliation): when the start-turn RPC rejects,
    resolves with an error embedded at top level or under [result], or
    resolves without a turn id, the thread's processing flag is set to
    false, its active turn id is cleared and an error message is appended
    to its items; when the response carries a turn id and no error, that
    turn id is recorded as the thread's active turn. *)
Theorem sendMessageToThread_reconciliation
  {P : Type} (props : Props P) (threadId : string) (outcome : RpcOutcome)
  (w : World) :
  let w' := exec (sendMessageToThread_settled props threadId outcome) w in
  (∀ error,
     outcome = Rejected error →
     processing w' threadId = false
     ∧ activeTurn w' threadId = None
     ∧ items w' threadId =
         items w threadId ++ [assistantMessage (thrownText error)])
  ∧ (∀ response,
       outcome = Resolved response →
       hasEmbeddedError response = true →
       processing w' threadId = false
       ∧ activeTurn w' threadId = None
       ∧ items w' threadId =
           items w threadId
             ++ [assistantMessage
                   ("Turn failed to start: "
                      +:+ errorText (embeddedError response))])
  ∧ (∀ response,
       outcome = Resolved response →
       hasEmbeddedError response = false →
       responseTurnId response = "" →
       processing w' threadId = false
       ∧ activeTurn w' threadId = None
       ∧ items w' threadId =
           items w threadId ++ [assistantMessage "Turn failed to start."])
  ∧ (∀ response turnId,
       outcome = Resolved response →
       hasEmbeddedError response = false →
       responseTurnId response = turnId
       ∨ prop (prop (prop response "result") "turn") "id" = JStr turnId →
       turnId ≠ "" →
       activeTurn w' threadId = Some turnId
       ∧ processing w' threadId = processing w threadId
       ∧ items w' threadId = items w threadId).
Proof.
  cbv zeta. split; [| split; [| split]].
  - intros error ->. run_hook.
    destruct (onDebug props); cbn [store];
      apply (startTurn_reverted (store w)).
  - intros response -> Herr.
    destruct (extractRpcErrorMessage_embedded response Herr)
      as (c & rest & Hsome & Htext).
    run_hook. rewrite Hsome, Htext.
    destruct (onDebug props); cbn [store];
      apply (startTurn_reverted (store w)).
  - intros response -> Herr Hid.
    run_hook. rewrite (extractRpcErrorMessage_clean response Herr), Hid.
    destruct (onDebug props); cbn [store truthyStr negb];
      apply (startTurn_reverted (store w)).
  - intros response turnId -> Herr Hid Hne.
    assert (responseTurnId response = turnId) as Hid'.
    { destruct Hid as [Hid | Hid];
        [exact Hid | apply responseTurnId_result_turn; exact Hid]. }
    run_hook. rewrite (extractRpcErrorMessage_clean response Herr), Hid'.
    destruct turnId as [| c rest]; [congruence |].
    destruct (onDebug props); cbn [store truthyStr negb];
      autorewrite with store; rewrite ?decide_True by reflexivity;
      repeat split.
Qed.

(** What a call of sendMessageToThread leaves alone: active turn ids, the
    pending-interrupt set and the interrupt calls; a thread's status is
    either untouched or has processing set. *)
Lemma sendMessageToThread_frame
  {P : Type} (expand : string → list P → PromptExpansion) (props : Props P)
  (workspace : WorkspaceInfo) (threadId text : string)
  (images : list string) (options : option SendMessageOptions)
  (clock : Clock) (w : World) :
  let w' :=
    exec (sendMessageToThread expand props workspace threadId text images
            options clock) w in
  (∀ other, activeTurnIdOf (store w') other = activeTurnIdOf (store w) other)
  ∧ pendingInterrupts w' = pendingInterrupts w
  ∧ interruptCalls w' = interruptCalls w
  ∧ (∀ other,
       statusOf (store w') other = statusOf (store w) other
       ∨ isProcessing (statusOf (store w') other) = true).
Proof.
  cbv zeta. unfold sendMessageToThread.
  destruct (negb (truthyStr (trim text)) && (length images =? 0)%nat);
    [run_hook; repeat split; left; reflexivity |].
  destruct (if from_option skipPromptExpansion false options
            then NoExpansion
            else expand (trim text) (customPrompts P props));
    run_hook; split_ifs; run_hook.
  all: (split; [intros other; autorewrite with store; reflexivity |]);
    (split; [reflexivity |]);
    (split;
     [unfold interruptCalls; cbn [effects];
      rewrite ?omap_app; cbn [omap interruptCallOf]; rewrite ?app_nil_r;
      reflexivity |]);
    intros other; autorewrite with store;
    try (left; reflexivity);
    (destruct (decide (threadId = other)); [right | left]; reflexivity).
Qed.

Lemma sendUserMessage_status
  {P : Type} (expand : string → list P → PromptExpansion) (props : Props P)
  (text : string) (images : list string) (ensured : option string)
  (clock : Clock) (w : World) (other : string) :
  let w' := exec (sendUserMessage expand props text images ensured clock) w in
  statusOf (store w') other = statusOf (store w) other
  ∨ isProcessing (statusOf (store w') other) = true.
Proof.
  cbv zeta. unfold sendUserMessage.
  destruct (activeWorkspace props) as [workspace |]; [| left; reflexivity].
  destruct (negb (truthyStr (trim text)) && (length images =? 0)%nat);
    [left; reflexivity |].
  destruct (expand (trim text) (customPrompts P props)).
  - destruct ensured as [[| c rest] |]; try (left; reflexivity).
    apply sendMessageToThread_frame.
  - destruct (activeThreadId props) as [[| c rest] |];
      run_hook; split_ifs; left; reflexivity.
  - destruct ensured as [[| c rest] |]; try (left; reflexivity).
    apply sendMessageToThread_frame.
Qed.

(** The two ways a handled start-turn response acts on the store. *)
Lemma sendMessageToThread_settled_store
  {P : Type} (props : Props P) (threadId : string) (outcome : RpcOutcome)
  (w : World) :
  let w' := exec (sendMessageToThread_settled props threadId outcome) w in
  pendingInterrupts w' = pendingInterrupts w
  ∧ interruptCalls w' = interruptCalls w
  ∧ (if startTurnFails outcome
     then ∃ text,
            store w' =
              reduce_addAssistantMessage threadId text
                (reduce_setActiveTurnId threadId None
                   (reduce_markProcessing threadId false (store w)))
     else ∃ response,
            outcome = Resolved response
            ∧ store w' =
                reduce_setActiveTurnId threadId
                  (Some (responseTurnId response)) (store w)).
Proof.
  cbv zeta. destruct outcome as [response | error]; cbn [startTurnFails].
  - destruct (hasEmbeddedError response) eqn:Herr; cbn [orb].
    + destruct (extractRpcErrorMessage_embedded response Herr)
        as (c & rest & Hsome & _).
      run_hook. rewrite Hsome.
      destruct (onDebug props); cbn [store pendingInterrupts effects];
        (split; [reflexivity |]);
        (split;
         [unfold interruptCalls; cbn [effects];
          rewrite ?omap_app; cbn [omap interruptCallOf];
          rewrite ?app_nil_r; reflexivity |]);
        eexists; reflexivity.
    + run_hook. rewrite (extractRpcErrorMessage_clean response Herr).
      destruct (truthyStr (responseTurnId response)); cbn [negb];
        destruct (onDebug props); cbn [store pendingInterrupts effects];
        (split; [reflexivity |]);
        (split;
         [unfold interruptCalls; cbn [effects];
          rewrite ?omap_app; cbn [omap interruptCallOf];
          rewrite ?app_nil_r; reflexivity |]);
        eexists; try split; reflexivity.
  - run_hook.
    destruct (onDebug props); cbn [store pendingInterrupts effects];
      (split; [reflexivity |]);
      (split;
       [unfold interruptCalls; cbn [effects];
        rewrite ?omap_app; cbn [omap interruptCallOf];
        rewrite ?app_nil_r; reflexivity |]);
      eexists; reflexivity.
Qed.

(** ** The status invariant along interleavings *)

Section Interleavings.

Context {P : Type}.
Variable expand : string → list P → PromptExpansion.
Variable parse : string → JValue.

(** Every event other than the three that clear processing alone leaves
    a thread's status as it was, or sets its processing flag, or clears
    its reviewing flag. *)
Lemma step_status (threadId : string) (e : Event P) (w : World) :
  clearsProcessingOnly threadId e = false →
  statusOf (store (step expand parse w e)) threadId =
    statusOf (store w) threadId
  ∨ isProcessing (statusOf (store (step expand parse w e)) threadId) = true
  ∨ isReviewing (statusOf (store (step expand parse w e)) threadId) = false.
Proof.
  intros Hclear.
  destruct e as [props workspace target text images options clock
                | props text images ensured clock
                | props target outcome
                | props
                | props outcome
                | props text ensured
                | props target outcome
                | workspaceId target turnId
                | workspaceId target turnId
                | workspaceId target turnId message willRetry];
    cbn [step clearsProcessingOnly] in *.
  - destruct (sendMessageToThread_frame expand props workspace target text
                images options clock w) as (_ & _ & _ & Hstatus).
    destruct (Hstatus threadId) as [Hsame | Hproc]; auto.
  - destruct (sendUserMessage_status expand props text images ensured
                clock w threadId) as [Hsame | Hproc]; auto.
  - destruct (sendMessageToThread_settled_store props target outcome w)
      as (_ & _ & Hstore).
    destruct (startTurnFails outcome).
    + rewrite andb_true_r in Hclear.
      apply bool_decide_eq_false in Hclear.
      destruct Hstore as [text ->]. left. autorewrite with store.
      rewrite decide_False by exact Hclear. reflexivity.
    + destruct Hstore as (response & _ & ->). left. reflexivity.
  - left. unfold interruptTurn.
    destruct (activeWorkspace props) as [workspace |]; [| reflexivity].
    destruct (activeThreadId props) as [[| c rest] |]; try reflexivity.
    apply bool_decide_eq_false in Hclear.
    run_hook. split_ifs; cbn [store]; autorewrite with store;
      rewrite decide_False by exact Hclear; reflexivity.
  - left. destruct outcome; run_hook; split_ifs; reflexivity.
  - unfold startReview.
    destruct (activeWorkspace props) as [workspace |]; [| left; reflexivity].
    destruct (negb (truthyStr (trim text))); [left; reflexivity |].
    destruct ensured as [[| c rest] |]; try (left; reflexivity).
    run_hook. destruct (onDebug props);
      finish_status (String c rest) threadId.
  - destruct outcome as [response | error]; run_hook.
    + destruct (extractRpcErrorMessage response) as [[| c rest] |];
        destruct (onDebug props); try (left; reflexivity);
        finish_status target threadId.
    + destruct (onDebug props); finish_status target threadId.
  - run_hook.
    destruct (bool_decide (target ∈ pendingInterrupts w));
      destruct (truthyStr turnId); finish_status target threadId.
  - apply bool_decide_eq_false in Hclear.
    left. run_hook. autorewrite with store.
    rewrite decide_False by exact Hclear. reflexivity.
  - destruct willRetry; [left; reflexivity |].
    run_hook. finish_status target threadId.
Qed.

Lemma step_preserves_invariant (threadId : string) (e : Event P)
  (w : World) :
  clearsProcessingOnly threadId e = false →
  reviewImpliesProcessing w threadId →
  reviewImpliesProcessing (step expand parse w e) threadId.
Proof.
  intros Hclear Hinv. unfold reviewImpliesProcessing, reviewing, processing
    in *.
  destruct (step_status threadId e w Hclear) as [Hsame | [Hproc | Hrev]].
  - rewrite Hsame. exact Hinv.
  - intros _. exact Hproc.
  - rewrite Hrev. discriminate.
Qed.

(** The three remaining events do clear processing alone. *)
Lemma step_clears_processing_only (threadId : string) (e : Event P)
  (w : World) :
  clearsProcessingOnly threadId e = true →
  processing (step expand parse w e) threadId = false
  ∧ reviewing (step expand parse w e) threadId = reviewing w threadId.
Proof.
  intros Hclear. unfold processing, reviewing.
  destruct e as [props workspace target text images options clock
                | props text images ensured clock
                | props target outcome
                | props
                | props outcome
                | props text ensured
                | props target outcome
                | workspaceId target turnId
                | workspaceId target turnId
                | workspaceId target turnId message willRetry];
    cbn [step clearsProcessingOnly] in *; try discriminate.
  - apply andb_true_iff in Hclear as [Htarget Hfails].
    apply bool_decide_eq_true in Htarget; subst target.
    destruct (sendMessageToThread_settled_store props threadId outcome w)
      as (_ & _ & Hstore).
    rewrite Hfails in Hstore. destruct Hstore as [text ->].
    autorewrite with store. rewrite !decide_True by reflexivity.
    split; reflexivity.
  - unfold interruptTurn.
    destruct (activeWorkspace props) as [workspace |]; [| discriminate].
    destruct (activeThreadId props) as [[| c rest] |]; try discriminate.
    apply bool_decide_eq_true in Hclear; subst threadId.
    run_hook. split_ifs; cbn [store]; autorewrite with store;
      rewrite !decide_True by reflexivity; split; reflexivity.
  - apply bool_decide_eq_true in Hclear; subst target.
    run_hook. autorewrite with store.
    rewrite !decide_True by reflexivity. split; reflexivity.
Qed.

End Interleavings.

(** ** The interrupt-before-start race *)

(** turn-started for a thread with an interrupt pending: the entry is
    consumed and the interrupt goes out with the turn id now known; the
    thread's status and active turn id are not touched. *)
Lemma onTurnStarted_pending
  (workspaceId threadId turnId : string) (w : World) :
  threadId ∈ pendingInterrupts w →
  turnId ≠ "" →
  let w' := exec (onTurnStarted workspaceId threadId turnId) w in
  processing w' threadId = processing w threadId
  ∧ activeTurn w' threadId = activeTurn w threadId
  ∧ pendingInterrupts w' = pendingInterrupts w ∖ {[threadId]}
  ∧ interruptCalls w' =
      interruptCalls w ++ [(workspaceId, threadId, turnId)].
Proof.
  intros Hpend Hne. destruct turnId as [| c rest]; [congruence |].
  run_hook. rewrite bool_decide_eq_true_2 by exact Hpend.
  cbn [store pendingInterrupts effects truthyStr].
  autorewrite with store. repeat split.
  unfold interruptCalls; cbn [effects]. rewrite omap_app. reflexivity.
Qed.

(** A start-turn response that carries a turn id and no error: the id is
    recorded, whatever else is going on. *)
Lemma sendMessageToThread_settled_success
  {P : Type} (props : Props P) (threadId turnId : string)
  (response : JValue) (w : World) :
  hasEmbeddedError response = false →
  responseTurnId response = turnId →
  turnId ≠ "" →
  let w' :=
    exec (sendMessageToThread_settled props threadId (Resolved response)) w in
  processing w' threadId = processing w threadId
  ∧ activeTurn w' threadId = Some turnId
  ∧ pendingInterrupts w' = pendingInterrupts w
  ∧ interruptCalls w' = interruptCalls w.
Proof.
  intros Herr Hid Hne.
  destruct (sendMessageToThread_settled_store props threadId
              (Resolved response) w) as (Hpend & Hcalls & Hstore).
  cbn [startTurnFails] in Hstore. rewrite Herr, Hid in Hstore.
  destruct turnId as [| c rest]; [congruence |].
  cbn [orb negb truthyStr] in Hstore.
  destruct Hstore as (response' & Heq & Hstore).
  injection Heq as <-. rewrite Hid in Hstore.
  cbv zeta. unfold processing, activeTurn. rewrite Hstore.
  autorewrite with store. rewrite decide_True by reflexivity.
  repeat split; assumption.
Qed.

(** C1, as amended (interrupt-before-start race): sendMessage has been
    issued on a thread and interruptTurn runs while no turn id is known.
    interruptTurn leaves the thread not processing, with an interrupt
    pending, and issues an interrupt RPC with the placeholder "pending".
    When turn-started then arrives with a non-empty turn id T, the entry
    is consumed and exactly one more interrupt RPC is issued, carrying T;
    the thread stays not processing and T is not recorded by that event:
    the active turn id is null as long as the start RPC's response has
    not been handled. Whether that response is handled before or after
    turn-started, the thread ends not processing, with no interrupt
    pending and with the same two interrupt calls. *)
Theorem interrupt_before_start_race
  {P : Type} (expand : string → list P → PromptExpansion)
  (parse : string → JValue) (props : Props P) (workspace : WorkspaceInfo)
  (threadId text : string) (images : list string)
  (options : option SendMessageOptions) (clock : Clock)
  (eventWorkspaceId turnId : string) (response : JValue) (w : World) :
  activeWorkspace props = Some workspace →
  activeThreadId props = Some threadId →
  threadId ≠ "" →
  activeTurn w threadId = None →
  turnId ≠ "" →
  hasEmbeddedError response = false →
  responseTurnId response = turnId →
  let send :=
    CallSendMessageToThread props workspace threadId text images options
      clock in
  let interrupt := CallInterruptTurn props in
  let started := TurnStarted eventWorkspaceId threadId turnId in
  let settled := SettleStartTurn props threadId (Resolved response) in
  let calls :=
    interruptCalls w
      ++ [(id workspace, threadId, "pending");
          (eventWorkspaceId, threadId, turnId)] in
  let interrupted := run expand parse w [send; interrupt] in
  let startedFirst := run expand parse w [send; interrupt; started] in
  let settledFirst :=
    run expand parse w [send; interrupt; settled; started] in
  let settledLast :=
    run expand parse w [send; interrupt; started; settled] in
  (processing interrupted threadId = false
   ∧ activeTurn interrupted threadId = None
   ∧ threadId ∈ pendingInterrupts interrupted
   ∧ interruptCalls interrupted =
       interruptCalls w ++ [(id workspace, threadId, "pending")])
  ∧ (processing startedFirst threadId = false
     ∧ activeTurn startedFirst threadId = None
     ∧ (threadId ∉ pendingInterrupts startedFirst)
     ∧ interruptCalls startedFirst = calls)
  ∧ (processing settledFirst threadId = false
     ∧ (threadId ∉ pendingInterrupts settledFirst)
     ∧ interruptCalls settledFirst = calls)
  ∧ (processing settledLast threadId = false
     ∧ (threadId ∉ pendingInterrupts settledLast)
     ∧ interruptCalls settledLast = calls).
Proof.
  intros Hws Hth Hne Hturn HT Herr Hid. cbv zeta.
  unfold run; cbn [fold_left step].
  destruct (sendMessageToThread_frame expand props workspace threadId text
              images options clock w) as (Hturn1 & Hpend1 & Hcalls1 & _).
  set (w1 := exec (sendMessageToThread expand props workspace threadId text
                     images options clock) w) in *.
  assert (activeTurn w1 threadId = None) as Hnone1
    by (unfold activeTurn; rewrite Hturn1; exact Hturn).
  destruct (interruptTurn_unknown_turn props workspace threadId w1
              Hws Hth Hne Hnone1)
    as (Hpend2 & Hproc2 & Hturn2 & _ & Hcalls2).
  set (w2 := exec (interruptTurn props) w1) in *.
  rewrite Hcalls1 in Hcalls2.
  assert (threadId ∈ pendingInterrupts w2) as Hin2
    by (rewrite Hpend2; set_solver).
  (* turn-started straight after the interrupt *)
  destruct (onTurnStarted_pending eventWorkspaceId threadId turnId w2
              Hin2 HT) as (Hproc3 & Hturn3 & Hpend3 & Hcalls3).
  set (w3 := exec (onTurnStarted eventWorkspaceId threadId turnId) w2) in *.
  (* the response handled before turn-started *)
  destruct (sendMessageToThread_settled_success props threadId turnId
              response w2 Herr Hid HT)
    as (Hproc4 & _ & Hpend4 & Hcalls4).
  set (w4 := exec (sendMessageToThread_settled props threadId
                     (Resolved response)) w2) in *.
  assert (threadId ∈ pendingInterrupts w4) as Hin4
    by (rewrite Hpend4; exact Hin2).
  destruct (onTurnStarted_pending eventWorkspaceId threadId turnId w4
              Hin4 HT) as (Hproc5 & _ & Hpend5 & Hcalls5).
  (* the response handled after turn-started *)
  destruct (sendMessageToThread_settled_success props threadId turnId
              response w3 Herr Hid HT)
    as (Hproc6 & _ & Hpend6 & Hcalls6).
  split; [| split; [| split]].
  - repeat split; assumption.
  - split; [congruence |]. split; [congruence |].
    split; [rewrite Hpend3; set_solver |].
    rewrite Hcalls3, Hcalls2, <- app_assoc. reflexivity.
  - split; [congruence |].
    split; [rewrite Hpend5; set_solver |].
    rewrite Hcalls5, Hcalls4, Hcalls2, <- app_assoc. reflexivity.
  - split; [congruence |].
    split; [rewrite Hpend6, Hpend3; set_solver |].
    rewrite Hcalls6, Hcalls3, Hcalls2, <- app_assoc. reflexivity.
Qed.

(** C1, as stated, fails. In the race on thread t1 with the start RPC
    resolving to turn-1 before turn-started arrives, the thread ends with
    turn-1 recorded as its active turn id, and two interrupt RPC calls
    have been made, the first carrying "pending"; the two calls are made
    as well when turn-started is handled first. *)
Lemma interrupt_before_start_race_counterexample :
  (activeTurn emptyWorld "t1" = None
   ∧ activeTurn raceSettledFirst "t1" = Some "turn-1"
   ∧ interruptCalls raceSettledFirst =
       [("ws1", "t1", "pending"); ("ws1", "t1", "turn-1")]
   ∧ interruptCalls raceStartedFirst =
       [("ws1", "t1", "pending"); ("ws1", "t1", "turn-1")])
  ∧ ¬ (processing raceSettledFirst "t1" = false
       ∧ activeTurn raceSettledFirst "t1" = None
       ∧ interruptCalls raceSettledFirst = [("ws1", "t1", "turn-1")]).
Proof.
  split.
  - repeat split; vm_compute; reflexivity.
  - intros (_ & Hturn & _). vm_compute in Hturn. discriminate Hturn.
Qed.

(** C2, as stated, fails: on thread t1 with no turn id known,
    interruptTurn records the thread as pending and nevertheless issues
    an interrupt RPC, with the turn id "pending". *)
Lemma interruptTurn_without_turn_id_counterexample :
  (activeTurn emptyWorld "t1" = None
   ∧ interruptCalls emptyWorld = []
   ∧ interruptCalls (exec (interruptTurn props1) emptyWorld) =
       [("ws1", "t1", "pending")])
  ∧ ¬ (interruptCalls (exec (interruptTurn props1) emptyWorld) =
         interruptCalls emptyWorld).
Proof.
  split.
  - repeat split; vm_compute; reflexivity.
  - intros Hcalls. vm_compute in Hcalls. discriminate Hcalls.
Qed.

(** C3, as stated, fails: interrupting a review, and completing a review,
    both leave thread t1 reviewing and not processing. *)
Lemma reviewImpliesProcessing_counterexample :
  (reviewing reviewInterrupted "t1" = true
   ∧ processing reviewInterrupted "t1" = false
   ∧ reviewing reviewCompleted "t1" = true
   ∧ processing reviewCompleted "t1" = false)
  ∧ ¬ reviewImpliesProcessing reviewInterrupted "t1"
  ∧ ¬ reviewImpliesProcessing reviewCompleted "t1".
Proof.
  assert (reviewing reviewInterrupted "t1" = true
          ∧ processing reviewInterrupted "t1" = false
          ∧ reviewing reviewCompleted "t1" = true
          ∧ processing reviewCompleted "t1" = false) as Hfacts
    by (repeat split; vm_compute; reflexivity).
  split; [exact Hfacts |].
  destruct Hfacts as (Hr1 & Hp1 & Hr2 & Hp2).
  split; intros Hinv.
  - specialize (Hinv Hr1). rewrite Hp1 in Hinv. discriminate Hinv.
  - specialize (Hinv Hr2). rewrite Hp2 in Hinv. discriminate Hinv.
Qed.

(** C3, as amended: on every thread, isReviewing implies isProcessing is
    preserved along every sequence of commands, settled RPCs and inbound
    events that contains none of interruptTurn on that thread,
    turn-completed for it, or a failed start-turn RPC for it; each of
    these three sets isProcessing to false and leaves isReviewing as it
    was. A startReview that issues its RPC for the thread establishes
    both flags. *)
Theorem reviewImpliesProcessing_interleavings
  {P : Type} (expand : string → list P → PromptExpansion)
  (parse : string → JValue) (threadId : string) :
  (∀ (events : list (Event P)) (w : World),
     reviewImpliesProcessing w threadId →
     Forall (λ e, clearsProcessingOnly threadId e = false) events →
     reviewImpliesProcessing (run expand parse w events) threadId)
  ∧ (∀ (e : Event P) (w : World),
       clearsProcessingOnly threadId e = true →
       processing (step expand parse w e) threadId = false
       ∧ reviewing (step expand parse w e) threadId = reviewing w threadId)
  ∧ (∀ (props : Props P) (text : string) (ensured : option string)
       (w : World),
       result (startReview parse props text ensured) w = Some threadId →
       processing (exec (startReview parse props text ensured) w) threadId
         = true
       ∧ reviewing (exec (startReview parse props text ensured) w) threadId
         = true).
Proof.
  split; [| split].
  - intros events. induction events as [| e events IH]; intros w Hinv Hall.
    + exact Hinv.
    + inversion Hall as [| e' events' He Hrest]; subst.
      cbn [run fold_left]. apply IH; [| exact Hrest].
      apply step_preserves_invariant; assumption.
  - intros e w. apply step_clears_processing_only.
  - intros props text ensured w. unfold startReview.
    destruct (activeWorkspace props) as [workspace |];
      [| cbv [result mret M_ret fst]; discriminate].
    destruct (negb (truthyStr (trim text)));
      [cbv [result mret M_ret fst]; discriminate |].
    destruct ensured as [[| c rest] |];
      try (cbv [result mret M_ret fst]; discriminate).
    run_hook. destruct (onDebug props); cbn [store];
      intros [= <-]; autorewrite with store;
      rewrite !decide_True by reflexivity; split; reflexivity.
Qed.

(** ** The theorems at sample inputs *)

Lemma interrupt_before_start_race_witness :
  (activeWorkspace props1 = Some ws1
   ∧ activeThreadId props1 = Some "t1"
   ∧ "t1" ≠ ""
   ∧ activeTurn emptyWorld "t1" = None
   ∧ "turn-1" ≠ ""
   ∧ hasEmbeddedError (turnStartResponse "turn-1") = false
   ∧ responseTurnId (turnStartResponse "turn-1") = "turn-1")
  ∧ processing raceStartedFirst "t1" = false
  ∧ activeTurn raceStartedFirst "t1" = None
  ∧ ("t1" ∉ pendingInterrupts raceStartedFirst)
  ∧ interruptCalls raceStartedFirst =
      interruptCalls emptyWorld
        ++ [(id ws1, "t1", "pending"); ("ws1", "t1", "turn-1")].
Proof.
  assert ("t1" ≠ "") as Hthread by discriminate.
  assert ("turn-1" ≠ "") as Hturn by discriminate.
  split.
  - repeat split; try reflexivity; assumption.
  - exact (proj1 (proj2
      (interrupt_before_start_race noExpansion sampleParseReviewTarget
         props1 ws1 "t1" "hello" [] None clock1 "ws1" "turn-1"
         (turnStartResponse "turn-1") emptyWorld
         eq_refl eq_refl Hthread eq_refl Hturn eq_refl eq_refl))).
Defined.

Lemma interruptTurn_without_turn_id_witness :
  (activeWorkspace props1 = Some ws1
   ∧ activeThreadId props1 = Some "t1"
   ∧ "t1" ≠ ""
   ∧ activeTurn emptyWorld "t1" = None)
  ∧ "t1" ∈ pendingInterrupts (exec (interruptTurn props1) emptyWorld)
  ∧ processing (exec (interruptTurn props1) emptyWorld) "t1" = false
  ∧ activeTurn (exec (interruptTurn props1) emptyWorld) "t1" = None
  ∧ items (exec (interruptTurn props1) emptyWorld) "t1" =
      items emptyWorld "t1" ++ [assistantMessage "Session stopped."]
  ∧ interruptCalls (exec (interruptTurn props1) emptyWorld) =
      interruptCalls emptyWorld ++ [(id ws1, "t1", "pending")].
Proof.
  assert ("t1" ≠ "") as Hthread by discriminate.
  split.
  - repeat split; try reflexivity; assumption.
  - exact (interruptTurn_without_turn_id props1 ws1 "t1" emptyWorld
             eq_refl eq_refl Hthread eq_refl).
Defined.

Lemma reviewImpliesProcessing_interleavings_witness :
  (reviewImpliesProcessing emptyWorld "t1"
   ∧ Forall (λ e, clearsProcessingOnly "t1" e = false) reviewFailing)
  ∧ reviewImpliesProcessing
      (run noExpansion sampleParseReviewTarget emptyWorld reviewFailing)
      "t1".
Proof.
  assert (reviewImpliesProcessing emptyWorld "t1") as Hinv
    by (intros Hrev; vm_compute in Hrev; discriminate Hrev).
  assert (Forall (λ e, clearsProcessingOnly "t1" e = false) reviewFailing)
    as Hall by (repeat constructor).
  split; [split; assumption |].
  exact (proj1
           (reviewImpliesProcessing_interleavings noExpansion
              sampleParseReviewTarget "t1")
           reviewFailing emptyWorld Hinv Hall).
Defined.

Lemma sendMessageToThread_reconciliation_witness :
  (hasEmbeddedError (turnStartResponse "turn-1") = false
   ∧ responseTurnId (turnStartResponse "turn-1") = "turn-1"
   ∧ "turn-1" ≠ "")
  ∧ activeTurn
      (exec (sendMessageToThread_settled props1 "t1"
               (Resolved (turnStartResponse "turn-1"))) emptyWorld) "t1" =
    Some "turn-1"
  ∧ (hasEmbeddedError (JObj [("error", JStr "boom")]) = true
     ∧ hasEmbeddedError
         (JObj [("result", JObj [("error", JObj [("message", JStr "boom")])])])
       = true
     ∧ hasEmbeddedError (JObj [("result", JObj [])]) = false
     ∧ responseTurnId (JObj [("result", JObj [])]) = "")
  ∧ items
      (exec (sendMessageToThread_settled props1 "t1"
               (Resolved (JObj [("error", JStr "boom")]))) emptyWorld) "t1" =
    items emptyWorld "t1"
      ++ [assistantMessage
            ("Turn failed to start: "
               +:+ errorText (embeddedError (JObj [("error", JStr "boom")])))]
  ∧ activeTurn
      (exec (sendMessageToThread_settled props1 "t1"
               (Resolved
                  (JObj [("result",
                          JObj [("error",
                                 JObj [("message", JStr "boom")])])])))
         emptyWorld) "t1" = None
  ∧ processing
      (exec (sendMessageToThread_settled props1 "t1"
               (Resolved (JObj [("result", JObj [])]))) emptyWorld) "t1" =
    false
  ∧ processing
      (exec (sendMessageToThread_settled props1 "t1"
               (Rejected (ErrorInstance "offline"))) emptyWorld) "t1" =
    false.
Proof.
  assert ("turn-1" ≠ "") as Hturn by discriminate.
  split; [repeat split; try reflexivity; assumption |].
  split.
  { exact (proj1
             (proj2 (proj2 (proj2
                (sendMessageToThread_reconciliation props1 "t1"
                   (Resolved (turnStartResponse "turn-1")) emptyWorld)))
                (turnStartResponse "turn-1") "turn-1" eq_refl eq_refl
                (or_introl eq_refl) Hturn)). }
  split; [repeat split; reflexivity |].
  split.
  { exact (proj2 (proj2
             (proj1 (proj2
                (sendMessageToThread_reconciliation props1 "t1"
                   (Resolved (JObj [("error", JStr "boom")])) emptyWorld))
                (JObj [("error", JStr "boom")]) eq_refl eq_refl))). }
  split.
  { exact (proj1 (proj2
             (proj1 (proj2
                (sendMessageToThread_reconciliation props1 "t1"
                   (Resolved
                      (JObj [("result",
                              JObj [("error",
                                     JObj [("message", JStr "boom")])])]))
                   emptyWorld))
                _ eq_refl eq_refl))). }
  split.
  { exact (proj1
             (proj1 (proj2 (proj2
                (sendMessageToThread_reconciliation props1 "t1"
                   (Resolved (JObj [("result", JObj [])])) emptyWorld)))
                _ eq_refl eq_refl eq_refl)). }
  exact (proj1
           (proj1
              (sendMessageToThread_reconciliation props1 "t1"
                 (Rejected (ErrorInstance "offline")) emptyWorld)
              _ eq_refl)).
Defined.

Lemma onTurnError_terminal_witness :
  ("rate limited" ≠ "" ∧ "" = "")
  ∧ items (exec (onTurnError "ws1" "t1" "turn-1" "rate limited" false)
             emptyWorld) "t1" =
    items emptyWorld "t1" ++ [assistantMessage "Turn failed: rate limited"]
  ∧ items (exec (onTurnError "ws1" "t1" "turn-1" "" false) emptyWorld) "t1" =
    items emptyWorld "t1" ++ [assistantMessage "Turn failed."].
Proof.
  assert ("rate limited" ≠ "") as Hmessage by discriminate.
  split; [split; [exact Hmessage | reflexivity] |].
  split.
  - exact (proj1 (proj2 (proj2 (proj2 (proj2
             (onTurnError_terminal "ws1" "t1" "turn-1" "rate limited"
                emptyWorld))))) Hmessage).
  - exact (proj2 (proj2 (proj2 (proj2 (proj2
             (onTurnError_terminal "ws1" "t1" "turn-1" "" emptyWorld)))))
             eq_refl).
Defined.

Lemma idle_emptyWorld : idle emptyWorld "t1".
Proof. repeat split. apply not_elem_of_empty. Qed.

Lemma idle_completedWorld : idle completedWorld "t1".
Proof.
  repeat split. unfold completedWorld. run_hook. set_solver.
Qed.

Lemma onTurnCompleted_idempotent_witness :
  (idle emptyWorld "t1"
   ∧ idle completedWorld "t1"
   ∧ is_Some (threadStatusById (store completedWorld) !! "t1")
   ∧ is_Some (activeTurnIdByThread (store completedWorld) !! "t1"))
  ∧ sameView (exec (onTurnCompleted "ws1" "t1" "turn-1") emptyWorld)
      emptyWorld
  ∧ exec (onTurnCompleted "ws1" "t1" "turn-1") completedWorld =
    completedWorld.
Proof.
  assert (is_Some (threadStatusById (store completedWorld) !! "t1"))
    as Hstatus by (eexists; apply lookup_insert_eq).
  assert (is_Some (activeTurnIdByThread (store completedWorld) !! "t1"))
    as Hturn by (eexists; apply lookup_insert_eq).
  split.
  - split; [exact idle_emptyWorld |]. split; [exact idle_completedWorld |].
    split; assumption.
  - split.
    + exact (proj1 (proj2
               (onTurnCompleted_idempotent "ws1" "t1" "turn-1" emptyWorld))
               idle_emptyWorld).
    + exact (proj1 (proj2 (proj2
               (onTurnCompleted_idempotent "ws1" "t1" "turn-1"
                  completedWorld)))
               idle_completedWorld Hstatus Hturn).
Defined.

Lemma interruptTurn_failure_not_reverted_witness :
  (activeWorkspace props1 = Some ws1
   ∧ activeThreadId props1 = Some "t1"
   ∧ "t1" ≠ "")
  ∧ store
      (exec (interruptTurn_settled props1 (Rejected (ErrorInstance "offline")))
         (exec (interruptTurn props1) emptyWorld)) =
    store (exec (interruptTurn props1) emptyWorld).
Proof.
  assert ("t1" ≠ "") as Hthread by discriminate.
  split; [repeat split; try reflexivity; assumption |].
  exact (proj1 (proj2
           (interruptTurn_failure_not_reverted props1 ws1 "t1"
              (ErrorInstance "offline") emptyWorld
              eq_refl eq_refl Hthread))).
Defined.

Lemma pendingWorld_pending : "t1" ∈ pendingInterrupts pendingWorld.
Proof. unfold pendingWorld; cbn [pendingInterrupts]. set_solver. Qed.

Lemma onTurnStarted_empty_turn_id_witness :
  ("t1" ∈ pendingInterrupts pendingWorld
   ∧ "t1" ∉ pendingInterrupts emptyWorld)
  ∧ effects (exec (onTurnStarted "ws1" "t1" "") pendingWorld) =
    effects pendingWorld
  ∧ processing (exec (onTurnStarted "ws1" "t1" "") emptyWorld) "t1" = true
  ∧ activeTurn (exec (onTurnStarted "ws1" "t1" "") emptyWorld) "t1" =
    activeTurn emptyWorld "t1".
Proof.
  assert ("t1" ∉ pendingInterrupts emptyWorld) as Hfree
    by apply not_elem_of_empty.
  split; [split; [exact pendingWorld_pending | exact Hfree] |].
  split.
  - exact (proj1 (proj2 (proj2
             (proj1 (onTurnStarted_empty_turn_id "ws1" "t1" pendingWorld)
                pendingWorld_pending)))).
  - split.
    + exact (proj1
               (proj2 (onTurnStarted_empty_turn_id "ws1" "t1" emptyWorld)
                  Hfree)).
    + exact (proj1 (proj2 (proj2
               (proj2 (onTurnStarted_empty_turn_id "ws1" "t1" emptyWorld)
                  Hfree)))).
Defined.

Lemma interruptTurn_without_selection_witness :
  (activeWorkspace propsNoThread = None ∨ activeThreadId propsNoThread = None)
  ∧ interruptTurn propsNoThread pendingWorld = (false, pendingWorld).
Proof.
  split; [right; reflexivity |].
  exact (proj1
           (interruptTurn_without_selection propsNoThread pendingWorld
              (or_intror eq_refl))).
Defined.

(** ** The scenarios of the specification *)

(** Scenario A: sending "hello" on a fresh thread marks it processing
    without adding an optimistic item; the response then records turn-1. *)
Example scenario_A :
  let sent :=
    exec (sendMessageToThread noExpansion props1 ws1 "t1" "hello" [] None
            clock1) emptyWorld in
  let settled :=
    exec (sendMessageToThread_settled props1 "t1"
            (Resolved (turnStartResponse "turn-1"))) sent in
  processing sent "t1" = true
  ∧ items sent "t1" = []
  ∧ activeTurn sent "t1" = None
  ∧ activeTurn settled "t1" = Some "turn-1"
  ∧ processing settled "t1" = true.
Proof. repeat split; vm_compute; reflexivity. Qed.

(** Scenario B: a terminal turn error on an active thread. *)
Example scenario_B :
  let active :=
    exec (onTurnStarted "ws1" "t1" "turn-1") emptyWorld in
  let failed :=
    exec (onTurnError "ws1" "t1" "turn-1" "rate limited" false) active in
  activeTurn active "t1" = Some "turn-1"
  ∧ processing failed "t1" = false
  ∧ reviewing failed "t1" = false
  ∧ activeTurn failed "t1" = None
  ∧ items failed "t1" = [assistantMessage "Turn failed: rate limited"].
Proof. repeat split; vm_compute; reflexivity. Qed.

(** Scenario C: a review whose RPC rejects. *)
Example scenario_C :
  let started :=
    exec (startReview sampleParseReviewTarget props1 "diff HEAD~1"
            (Some "t1")) emptyWorld in
  let rejected :=
    exec (startReview_settled props1 "t1"
            (Rejected (ErrorInstance "network error"))) started in
  processing started "t1" = true
  ∧ reviewing started "t1" = true
  ∧ processing rejected "t1" = false
  ∧ reviewing rejected "t1" = false
  ∧ items rejected "t1" = [assistantMessage "network error"].
Proof. repeat split; vm_compute; reflexivity. Qed.

(** Scenario D: interruptTurn with no active turn id. *)
Example scenario_D :
  let stopped := exec (interruptTurn props1) emptyWorld in
  items stopped "t1" = [assistantMessage "Session stopped."]
  ∧ processing stopped "t1" = false
  ∧ pendingInterrupts stopped = {["t1"]}.
Proof.
  split; [vm_compute; reflexivity |]. split; [vm_compute; reflexivity |].
  run_hook. set_solver.
Qed.

(** * Further properties of the hooks *)

(** ** sendMessageToThread, before the RPC *)




Lemma rpcCalls_effects (w w' : World) (more : list Effect) :
  effects w' = effects w ++ more →
  rpcCalls w' = rpcCalls w ++ filter (λ e, isRpc e = true) more.
Proof. unfold rpcCalls. intros ->. apply filter_app. Qed.






Lemma upsert_length (item : ConversationItem) (l : list ConversationItem) :
  (length l ≤ length (upsert item l) ≤ S (length l))%nat.
Proof.
  induction l as [| i rest IH]; cbn; [lia |].
  destruct (String.eqb (itemId i) (itemId item)); cbn; lia.
Qed.


(** ** sendUserMessage *)








(** ** startReview *)


(** X8: the three ways the review-start RPC settles. A response without
    embedded error changes nothing in the store: the thread stays
    processing and reviewing. An embedded error clears both flags and the
    active turn id and appends "Review failed to start: <error>". A
    rejection clears both flags and appends the error text, and leaves
    the active turn ids as they were. None of them issues an RPC or
    touches the pending-interrupt set. *)
Theorem startReview_settled_outcomes
  {P : Type} (props : Props P) (threadId : string) (outcome : RpcOutcome)
  (w : World) :
  let w' := exec (startReview_settled props threadId outcome) w in
  rpcCalls w' = rpcCalls w
  ∧ pendingInterrupts w' = pendingInterrupts w
  ∧ (∀ response,
       outcome = Resolved response →
       hasEmbeddedError response = false →
       store w' = store w)
  ∧ (∀ response,
       outcome = Resolved response →
       hasEmbeddedError response = true →
       processing w' threadId = false
       ∧ reviewing w' threadId = false
       ∧ activeTurn w' threadId = None
       ∧ items w' threadId =
           items w threadId
             ++ [assistantMessage
                   ("Review failed to start: "
                      +:+ errorText (embeddedError response))])
  ∧ (∀ error,
       outcome = Rejected error →
       processing w' threadId = false
       ∧ reviewing w' threadId = false
       ∧ activeTurnIdByThread (store w') = activeTurnIdByThread (store w)
       ∧ items w' threadId =
           items w threadId ++ [assistantMessage (thrownText error)]).
Proof.
  cbv zeta.
  assert (rpcCalls (exec (startReview_settled props threadId outcome) w)
            = rpcCalls w
          ∧ pendingInterrupts
              (exec (startReview_settled props threadId outcome) w)
            = pendingInterrupts w) as [Hrpc Hpend].
  { destruct outcome as [response | error]; run_hook;
      [destruct (extractRpcErrorMessage response) as [[| c rest] |] |];
      destruct (onDebug props); cbn [pendingInterrupts effects];
      unfold rpcCalls; cbn [effects]; rewrite ?filter_app; cbn;
      rewrite ?app_nil_r; split; reflexivity. }
  split; [exact Hrpc |]. split; [exact Hpend |].
  split; [| split].
  - intros response -> Herr. run_hook.
    rewrite (extractRpcErrorMessage_clean response Herr).
    destruct (onDebug props); reflexivity.
  - intros response -> Herr.
    destruct (extractRpcErrorMessage_embedded response Herr)
      as (c & rest & Hsome & Htext).
    run_hook. rewrite Hsome, Htext.
    destruct (onDebug props); cbn [store]; autorewrite with store;
      rewrite !decide_True by reflexivity; repeat split.
  - intros error ->. run_hook.
    destruct (onDebug props); cbn [store]; autorewrite with store;
      rewrite !decide_True by reflexivity; repeat split.
Qed.

(** ** interruptTurn with a known turn *)

(** X9: when the active thread has a server-issued turn id, interruptTurn
    sends exactly that id in its one interrupt RPC and records nothing in
    the pending-interrupt set; the thread is set to not processing, its
    active turn id is cleared and "Session stopped." is appended. *)
Theorem interruptTurn_known_turn
  {P : Type} (props : Props P) (workspace : WorkspaceInfo)
  (threadId turnId : string) (w : World) :
  activeWorkspace props = Some workspace →
  activeThreadId props = Some threadId →
  threadId ≠ "" →
  activeTurn w threadId = Some turnId →
  turnId ≠ "" →
  let w' := exec (interruptTurn props) w in
  rpcCalls w' =
    rpcCalls w ++ [InterruptTurnRpc (id workspace) threadId turnId]
  ∧ pendingInterrupts w' = pendingInterrupts w
  ∧ processing w' threadId = false
  ∧ activeTurn w' threadId = None
  ∧ items w' threadId =
      items w threadId ++ [assistantMessage "Session stopped."].
Proof.
  intros Hws Hth Hne Hturn HT.
  destruct (interruptTurn_selected props workspace threadId w Hws Hth Hne)
    as (_ & Hstore & Hpend & Heff).
  rewrite Hturn in Hpend, Heff. cbn [from_option default] in Hpend, Heff.
  destruct turnId as [| c rest]; [congruence |]. cbn [truthyStr] in Hpend.
  cbv zeta. split; [| split; [exact Hpend |]].
  - rewrite (rpcCalls_effects _ _ _ Heff), filter_app.
    destruct (onDebug props); reflexivity.
  - unfold processing, activeTurn, items. rewrite Hstore.
    autorewrite with store. rewrite !decide_True by reflexivity.
    repeat split.
Qed.

(** ** What every callback preserves *)

Section Preservation.

(** A relation between worlds that is kept by the store mutations the
    hooks dispatch, by every effect other than an interrupt RPC, and by
    removing a pending interrupt. *)
Variable R : World → World → Prop.
Hypothesis R_refl : ∀ w, R w w.
Hypothesis R_trans : ∀ w1 w2 w3, R w1 w2 → R w2 w3 → R w1 w3.
Hypothesis R_dispatch :
  ∀ action w, wellFormedAction action → R w (exec (dispatch action) w).
Hypothesis R_emit :
  ∀ e w, interruptCallOf e = None → R w (exec (emit e) w).
Hypothesis R_pendingDelete :
  ∀ threadId w, R w (exec (pendingDelete threadId) w).

Lemma preserves_ret {A : Type} (a : A) : preserves R (mret a).
Proof. intros w. apply R_refl. Qed.

Lemma preserves_bind {A B : Type} (m : M A) (f : A → M B) :
  preserves R m → (∀ a, preserves R (f a)) → preserves R (m ≫= f).
Proof.
  intros Hm Hf w. unfold exec, mbind, M_bind.
  specialize (Hm w). unfold exec in Hm.
  destruct (m w) as [a w1]. cbn [snd] in Hm.
  eapply R_trans; [exact Hm | apply Hf].
Qed.

Lemma preserves_when (b : bool) (m : M unit) :
  (b = true → preserves R m) → preserves R (when b m).
Proof.
  destruct b; intros Hm; [apply Hm; reflexivity | apply preserves_ret].
Qed.

Lemma preserves_readStore : preserves R readStore.
Proof. intros w. apply R_refl. Qed.

Lemma preserves_pendingHas (threadId : string) :
  preserves R (pendingHas threadId).
Proof. intros w. apply R_refl. Qed.

Lemma preserves_pendingDelete (threadId : string) :
  preserves R (pendingDelete threadId).
Proof. intros w. apply R_pendingDelete. Qed.

Lemma preserves_dispatch (action : ThreadAction) :
  wellFormedAction action → preserves R (dispatch action).
Proof. intros Hok w. apply R_dispatch, Hok. Qed.

Lemma preserves_emit (e : Effect) :
  interruptCallOf e = None → preserves R (emit e).
Proof. intros Hok w. apply R_emit, Hok. Qed.

Lemma wellFormed_truthy (threadId turnId : string) :
  truthyStr turnId = true →
  wellFormedAction (SetActiveTurnId threadId (Some turnId)).
Proof. destruct turnId; [discriminate | intros _; exact I]. Qed.

(** Walks down the body of a callback, one bind, branch or primitive at
    a time. *)
Ltac walk :=
  repeat first
    [ apply preserves_ret
    | apply preserves_readStore
    | apply preserves_pendingHas
    | apply preserves_pendingDelete
    | apply preserves_emit; reflexivity
    | apply preserves_dispatch; exact I
    | apply preserves_dispatch; apply wellFormed_truthy;
      first [ assumption
            | match goal with
              | H : negb (truthyStr ?t) = false |- truthyStr ?t = true =>
                  apply negb_false_iff in H; exact H
              end ]
    | apply preserves_bind; [| intros ?]
    | apply preserves_when; intros ?
    | match goal with
      | |- preserves _ (match ?x with _ => _ end) => destruct x eqn:?
      end ].

Ltac unfold_callbacks :=
  unfold markProcessing, markReviewing, setActiveTurnId,
    pushThreadErrorMessage, safeMessageActivity, recordThreadActivity,
    debug; cbv zeta.

Context {P : Type}.
Variable expand : string → list P → PromptExpansion.
Variable parse : string → JValue.

Lemma preserves_sendMessageToThread (props : Props P)
  (workspace : WorkspaceInfo) (threadId text : string)
  (images : list string) (options : option SendMessageOptions)
  (clock : Clock) :
  preserves R (sendMessageToThread expand props workspace threadId text
                 images options clock).
Proof. unfold sendMessageToThread. unfold_callbacks. walk. Qed.

Lemma preserves_sendUserMessage (props : Props P) (text : string)
  (images : list string) (ensured : option string) (clock : Clock) :
  preserves R (sendUserMessage expand props text images ensured clock).
Proof.
  unfold sendUserMessage. unfold_callbacks. walk;
    apply preserves_sendMessageToThread.
Qed.

Lemma preserves_sendMessageToThread_settled (props : Props P)
  (threadId : string) (outcome : RpcOutcome) :
  preserves R (sendMessageToThread_settled props threadId outcome).
Proof. unfold sendMessageToThread_settled. unfold_callbacks. walk. Qed.

Lemma preserves_interruptTurn_settled (props : Props P)
  (outcome : RpcOutcome) :
  preserves R (interruptTurn_settled props outcome).
Proof. unfold interruptTurn_settled. unfold_callbacks. walk. Qed.

Lemma preserves_startReview (props : Props P) (text : string)
  (ensured : option string) :
  preserves R (startReview parse props text ensured).
Proof. unfold startReview. unfold_callbacks. walk. Qed.

Lemma preserves_startReview_settled (props : Props P) (threadId : string)
  (outcome : RpcOutcome) :
  preserves R (startReview_settled props threadId outcome).
Proof. unfold startReview_settled. unfold_callbacks. walk. Qed.

Lemma preserves_onTurnCompleted (workspaceId threadId turnId : string) :
  preserves R (onTurnCompleted workspaceId threadId turnId).
Proof. unfold onTurnCompleted. unfold_callbacks. walk. Qed.

Lemma preserves_onTurnError (workspaceId threadId turnId message : string)
  (willRetry : bool) :
  preserves R (onTurnError workspaceId threadId turnId message willRetry).
Proof. unfold onTurnError. unfold_callbacks. walk. Qed.

(** Every event other than interruptTurn and turn-started keeps the
    relation. *)
Lemma step_preserves (e : Event P) (w : World) :
  isInterruptCommand e = false →
  isTurnStarted e = false →
  R w (step expand parse w e).
Proof.
  intros Hinterrupt Hstarted. destruct e; try discriminate; cbn [step].
  - apply preserves_sendMessageToThread.
  - apply preserves_sendUserMessage.
  - apply preserves_sendMessageToThread_settled.
  - apply preserves_interruptTurn_settled.
  - apply preserves_startReview.
  - apply preserves_startReview_settled.
  - apply preserves_onTurnCompleted.
  - apply preserves_onTurnError.
Qed.

End Preservation.

Lemma run_relation
  {P : Type} (expand : string → list P → PromptExpansion)
  (parse : string → JValue) (R : World → World → Prop)
  (Q : Event P → Prop) :
  (∀ w, R w w) →
  (∀ w1 w2 w3, R w1 w2 → R w2 w3 → R w1 w3) →
  (∀ e w, Q e → R w (step expand parse w e)) →
  ∀ events w, Forall Q events → R w (run expand parse w events).
Proof.
  intros Hrefl Htrans Hstep events.
  induction events as [| e events IH]; intros w Hall.
  - apply Hrefl.
  - inversion Hall as [| e' events' He Hrest]; subst.
    cbn [run fold_left]. eapply Htrans; [apply Hstep, He |].
    apply IH, Hrest.
Qed.

(** What interruptTurn does to the store, selected or not. *)
Lemma interruptTurn_store
  {P : Type} (props : Props P) (w : World) :
  store (exec (interruptTurn props) w) = store w
  ∨ ∃ threadId,
      store (exec (interruptTurn props) w) =
        reduce_addAssistantMessage threadId "Session stopped."
          (reduce_setActiveTurnId threadId None
             (reduce_markProcessing threadId false (store w))).
Proof.
  unfold interruptTurn.
  destruct (activeWorkspace props) as [workspace |]; [| left; reflexivity].
  destruct (activeThreadId props) as [[| c rest] |];
    try (left; reflexivity).
  right. exists (String c rest). run_hook. split_ifs; reflexivity.
Qed.

(** What turn-started does to the world, in its two branches. *)
Lemma onTurnStarted_world (workspaceId threadId turnId : string) (w : World) :
  exec (onTurnStarted workspaceId threadId turnId) w =
  if bool_decide (threadId ∈ pendingInterrupts w)
  then {| store := reduce_ensureThread workspaceId threadId (store w);
          pendingInterrupts := pendingInterrupts w ∖ {[threadId]};
          effects :=
            effects w
              ++ (if truthyStr turnId
                  then [InterruptTurnRpc workspaceId threadId turnId]
                  else []) |}
  else {| store :=
            (if truthyStr turnId
             then reduce_setActiveTurnId threadId (Some turnId)
             else λ s, s)
              (reduce_markProcessing threadId true
                 (reduce_ensureThread workspaceId threadId (store w)));
          pendingInterrupts := pendingInterrupts w;
          effects := effects w |}.
Proof.
  run_hook. destruct (bool_decide (threadId ∈ pendingInterrupts w));
    destruct (truthyStr turnId); cbn [store pendingInterrupts effects];
    rewrite ?app_nil_r; destruct w; reflexivity.
Qed.

(** ** Invariants of every interleaving *)

Lemma noEmptyTurnId_dispatch (action : ThreadAction) (w : World) :
  wellFormedAction action →
  noEmptyTurnId w → noEmptyTurnId (exec (dispatch action) w).
Proof.
  intros Hok Hinv threadId. specialize (Hinv threadId).
  unfold activeTurn in *. run_hook.
  destruct action as [ | | | | | target [[| c rest] |] | ];
    autorewrite with store; try exact Hinv; try (destruct Hok);
    destruct (decide (target = threadId)); try exact Hinv; discriminate.
Qed.

(** X14: the active turn id of a thread is never the empty string. If
    that holds of every thread to begin with, it holds after every
    sequence of commands, settled RPCs and inbound events, whatever turn
    ids the server sends. *)
Theorem activeTurn_never_empty
  {P : Type} (expand : string → list P → PromptExpansion)
  (parse : string → JValue) (events : list (Event P)) (w : World) :
  noEmptyTurnId w → noEmptyTurnId (run expand parse w events).
Proof.
  apply (run_relation expand parse
           (λ w w', noEmptyTurnId w → noEmptyTurnId w') (λ _, True));
    [auto | auto | | apply Forall_forall; auto].
  clear w events. intros e w _.
  destruct (isInterruptCommand e) eqn:Hinterrupt;
    [| destruct (isTurnStarted e) eqn:Hstarted].
  - destruct e; try discriminate. cbn [step]. intros Hinv threadId.
    unfold activeTurn.
    destruct (interruptTurn_store props w) as [-> | [target ->]];
      [apply Hinv |].
    autorewrite with store.
    destruct (decide (target = threadId)); [discriminate | apply Hinv].
  - destruct e; try discriminate. cbn [step]. intros Hinv other.
    unfold activeTurn. rewrite onTurnStarted_world.
    destruct (bool_decide (threadId ∈ pendingInterrupts w));
      cbn [store]; [autorewrite with store; apply Hinv |].
    destruct turnId as [| c rest]; cbn [truthyStr];
      autorewrite with store; [apply Hinv |].
    destruct (decide (threadId = other)); [discriminate | apply Hinv].
  - apply (step_preserves (λ w w', noEmptyTurnId w → noEmptyTurnId w'));
      auto.
    + intros action w0 Hok. apply noEmptyTurnId_dispatch, Hok.
Qed.

(** X15: only interruptTurn adds to the pending-interrupt set. Along any
    sequence of events in which interruptTurn is not invoked, the set
    never gains a thread: it stays within what it was. *)
Theorem pendingInterrupts_grow_only_by_interruptTurn
  {P : Type} (expand : string → list P → PromptExpansion)
  (parse : string → JValue) (events : list (Event P)) (w : World) :
  Forall (λ e, isInterruptCommand e = false) events →
  pendingInterrupts (run expand parse w events) ⊆ pendingInterrupts w.
Proof.
  apply (run_relation expand parse
           (λ w w', pendingInterrupts w' ⊆ pendingInterrupts w)
           (λ e, isInterruptCommand e = false));
    [set_solver | set_solver |].
  clear w events. intros e w Hinterrupt.
  destruct (isTurnStarted e) eqn:Hstarted.
  - destruct e; try discriminate. cbn [step]. rewrite onTurnStarted_world.
    destruct (bool_decide (threadId ∈ pendingInterrupts w));
      cbn [pendingInterrupts]; set_solver.
  - apply (step_preserves
             (λ w w', pendingInterrupts w' ⊆ pendingInterrupts w));
      auto; set_solver.
Qed.

(** X16: no interrupt RPC is ever sent unless the user invoked
    interruptTurn. Starting with an empty pending-interrupt set, any
    sequence of sends, reviews, settled RPCs and inbound events without
    an interruptTurn leaves the interrupt calls as they were and the set
    empty. *)
Theorem no_interrupt_without_interruptTurn
  {P : Type} (expand : string → list P → PromptExpansion)
  (parse : string → JValue) (events : list (Event P)) (w : World) :
  pendingInterrupts w = ∅ →
  Forall (λ e, isInterruptCommand e = false) events →
  pendingInterrupts (run expand parse w events) = ∅
  ∧ interruptCalls (run expand parse w events) = interruptCalls w.
Proof.
  intros Hempty Hall. revert Hempty.
  apply (run_relation expand parse
           (λ w w', pendingInterrupts w = ∅ →
                    pendingInterrupts w' = ∅
                    ∧ interruptCalls w' = interruptCalls w)
           (λ e, isInterruptCommand e = false));
    [auto | | | exact Hall].
  { intros w1 w2 w3 H12 H23 H1. destruct (H12 H1) as [H2 Hc2].
    destruct (H23 H2) as [H3 Hc3]. split; [exact H3 | congruence]. }
  clear w events Hall. intros e w Hinterrupt.
  destruct (isTurnStarted e) eqn:Hstarted.
  - destruct e; try discriminate. cbn [step]. intros Hempty.
    rewrite onTurnStarted_world, Hempty.
    rewrite bool_decide_eq_false_2 by set_solver.
    split; reflexivity.
  - apply (step_preserves
             (λ w w', pendingInterrupts w = ∅ →
                      pendingInterrupts w' = ∅
                      ∧ interruptCalls w' = interruptCalls w)); auto.
    + intros w1 w2 w3 H12 H23 H1. destruct (H12 H1) as [H2 Hc2].
      destruct (H23 H2) as [H3 Hc3]. split; [exact H3 | congruence].
    + intros e0 w0 Hnone Hempty. split; [exact Hempty |].
      unfold interruptCalls; cbn [exec emit snd effects].
      rewrite omap_app; cbn. rewrite Hnone. apply app_nil_r.
    + intros threadId w0 Hempty. split; [| reflexivity].
      run_hook. rewrite Hempty. set_solver.
Qed.

Lemma items_dispatch (action : ThreadAction) (w : World)
  (threadId : string) :
  (length (items w threadId)
   ≤ length (items (exec (dispatch action) w) threadId))%nat.
Proof.
  unfold items. run_hook.
  destruct action as [ | ws target item named | | | | | target text];
    autorewrite with store; try reflexivity;
    destruct (decide (target = threadId)) as [<- |]; try reflexivity.
  - apply upsert_length.
  - rewrite length_app. cbn. lia.
Qed.

(** X17: item sequences never shrink. After any sequence of commands,
    settled RPCs and inbound events, every thread has at least as many
    items as before: the hooks only append messages or upsert. *)
Theorem items_never_shrink
  {P : Type} (expand : string → list P → PromptExpansion)
  (parse : string → JValue) (events : list (Event P)) (w : World)
  (threadId : string) :
  (length (items w threadId)
   ≤ length (items (run expand parse w events) threadId))%nat.
Proof.
  revert threadId.
  apply (run_relation expand parse
           (λ w w', ∀ threadId,
              (length (items w threadId) ≤ length (items w' threadId))%nat)
           (λ _, True));
    [auto | | | apply Forall_forall; auto].
  { intros w1 w2 w3 H12 H23 threadId.
    specialize (H12 threadId). specialize (H23 threadId). lia. }
  clear w events. intros e w _.
  destruct (isInterruptCommand e) eqn:Hinterrupt;
    [| destruct (isTurnStarted e) eqn:Hstarted].
  - destruct e; try discriminate. cbn [step]. intros threadId.
    unfold items.
    destruct (interruptTurn_store props w) as [-> | [target ->]];
      [reflexivity |].
    autorewrite with store.
    destruct (decide (target = threadId)) as [<- |]; [| reflexivity].
    rewrite length_app. cbn. lia.
  - destruct e; try discriminate. cbn [step]. intros other.
    unfold items. rewrite onTurnStarted_world.
    destruct (bool_decide (threadId ∈ pendingInterrupts w));
      destruct (truthyStr turnId); cbn [store]; autorewrite with store;
      reflexivity.
  - apply (step_preserves
             (λ w w', ∀ threadId,
                (length (items w threadId)
                 ≤ length (items w' threadId))%nat)); auto.
    + intros w1 w2 w3 H12 H23 threadId.
      specialize (H12 threadId). specialize (H23 threadId). lia.
    + intros action w0 _ threadId. apply items_dispatch.
Qed.

(** ** Thread isolation *)

Ltac isolated :=
  unfold sameThread; cbn [store pendingInterrupts];
  autorewrite with store; rewrite ?decide_False by congruence;
  (split; [reflexivity |]); (split; [reflexivity |]);
  (split; [reflexivity |]); set_solver.

Lemma sendMessageToThread_isolation
  {P : Type} (expand : string → list P → PromptExpansion) (props : Props P)
  (workspace : WorkspaceInfo) (target text : string)
  (images : list string) (options : option SendMessageOptions)
  (clock : Clock) (w : World) (threadId : string) :
  target ≠ threadId →
  sameThread w
    (exec (sendMessageToThread expand props workspace target text images
             options clock) w) threadId.
Proof.
  intros Hne. unfold sendMessageToThread.
  destruct (negb (truthyStr (trim text)) && (length images =? 0)%nat);
    [run_hook; isolated |].
  destruct (if from_option skipPromptExpansion false options
            then NoExpansion
            else expand (trim text) (customPrompts P props));
    run_hook; split_ifs; run_hook; isolated.
Qed.

(** X10: threads are isolated from one another. An event changes what
    can be read of a thread (its status, active turn id, items, and
    whether an interrupt is pending for it) only if it is aimed at that
    thread: the thread a message is sent to or was ensured for, the
    active thread of interruptTurn and of an expansion error, or the
    thread an RPC response or inbound event names. *)
Theorem thread_isolation
  {P : Type} (expand : string → list P → PromptExpansion)
  (parse : string → JValue) (e : Event P) (threadId : string) (w : World) :
  touches e threadId = false →
  sameThread w (step expand parse w e) threadId.
Proof.
  intros Htouch.
  destruct e as [props workspace target text images options clock
                | props text images ensured clock
                | props target outcome
                | props
                | props outcome
                | props text ensured
                | props target outcome
                | workspaceId target turnId
                | workspaceId target turnId
                | workspaceId target turnId message willRetry];
    cbn [step touches] in *.
  - apply bool_decide_eq_false in Htouch.
    apply sendMessageToThread_isolation, Htouch.
  - apply orb_false_iff in Htouch as [Hensured Hactive].
    apply bool_decide_eq_false in Hensured, Hactive.
    unfold sendUserMessage.
    destruct (activeWorkspace props) as [workspace |]; [| isolated].
    destruct (negb (truthyStr (trim text)) && (length images =? 0)%nat);
      [isolated |].
    destruct (expand (trim text) (customPrompts P props)).
    + destruct ensured as [[| c rest] |]; try isolated.
      apply sendMessageToThread_isolation. congruence.
    + destruct (activeThreadId props) as [[| c rest] |];
        run_hook; split_ifs; isolated.
    + destruct ensured as [[| c rest] |]; try isolated.
      apply sendMessageToThread_isolation. congruence.
  - apply bool_decide_eq_false in Htouch.
    destruct (sendMessageToThread_settled_store props target outcome w)
      as (Hpend & _ & Hstore).
    unfold sameThread. rewrite Hpend.
    destruct (startTurnFails outcome);
      [destruct Hstore as [text ->] | destruct Hstore as (r & _ & ->)];
      autorewrite with store; rewrite ?decide_False by congruence;
      repeat split; auto.
  - apply bool_decide_eq_false in Htouch. unfold interruptTurn.
    destruct (activeWorkspace props) as [workspace |]; [| isolated].
    destruct (activeThreadId props) as [[| c rest] |]; try isolated.
    run_hook. split_ifs; isolated.
  - destruct outcome; run_hook; split_ifs; isolated.
  - apply bool_decide_eq_false in Htouch. unfold startReview.
    destruct (activeWorkspace props) as [workspace |]; [| isolated].
    destruct (negb (truthyStr (trim text))); [isolated |].
    destruct ensured as [[| c rest] |]; try isolated.
    run_hook. split_ifs; isolated.
  - apply bool_decide_eq_false in Htouch.
    destruct outcome as [response | error]; run_hook;
      [destruct (extractRpcErrorMessage response) as [[| c rest] |] |];
      split_ifs; isolated.
  - apply bool_decide_eq_false in Htouch. rewrite onTurnStarted_world.
    split_ifs; isolated.
  - apply bool_decide_eq_false in Htouch. run_hook. isolated.
  - apply bool_decide_eq_false in Htouch.
    destruct willRetry; run_hook; isolated.
Qed.

(** ** turn-started *)

(** X11: turn-started for a thread with no interrupt pending makes the
    thread exist, marks it processing and records the event's turn id as
    its active turn, overwriting whatever id was recorded before (the
    last turn-started wins); it issues no RPC and leaves the thread's
    items, reviewing flag and the pending-interrupt set alone. *)
Theorem onTurnStarted_records_turn
  (workspaceId threadId turnId : string) (w : World) :
  threadId ∉ pendingInterrupts w →
  turnId ≠ "" →
  let w' := exec (onTurnStarted workspaceId threadId turnId) w in
  threadExists (store w') workspaceId threadId
  ∧ processing w' threadId = true
  ∧ activeTurn w' threadId = Some turnId
  ∧ reviewing w' threadId = reviewing w threadId
  ∧ items w' threadId = items w threadId
  ∧ effects w' = effects w
  ∧ pendingInterrupts w' = pendingInterrupts w.
Proof.
  intros Hfree Hne. cbv zeta. rewrite onTurnStarted_world.
  rewrite bool_decide_eq_false_2 by exact Hfree.
  destruct turnId as [| c rest]; [congruence |]. cbn [truthyStr].
  unfold processing, activeTurn, reviewing, items; cbn [store effects
    pendingInterrupts].
  split.
  { unfold threadExists, threadsOf; cbn.
    apply (threadExists_ensureThread (store w)). }
  autorewrite with store. rewrite !decide_True by reflexivity.
  repeat split.
Qed.

(** X12: a pending interrupt is consumed by the first turn-started. If a
    second turn-started arrives for the thread, it is treated as a fresh
    turn: the thread is marked processing with the second turn id as its
    active turn, and only the first turn id was sent to the interrupt
    RPC. *)
Theorem pending_interrupt_consumed_once
  (workspaceId threadId first second : string) (w : World) :
  threadId ∈ pendingInterrupts w →
  first ≠ "" →
  second ≠ "" →
  let w' :=
    exec (onTurnStarted workspaceId threadId second)
      (exec (onTurnStarted workspaceId threadId first) w) in
  interruptCalls w' = interruptCalls w ++ [(workspaceId, threadId, first)]
  ∧ processing w' threadId = true
  ∧ activeTurn w' threadId = Some second
  ∧ threadId ∉ pendingInterrupts w'.
Proof.
  intros Hpend Hfirst Hsecond.
  destruct (onTurnStarted_pending workspaceId threadId first w Hpend Hfirst)
    as (_ & _ & Hpend1 & Hcalls1).
  set (w1 := exec (onTurnStarted workspaceId threadId first) w) in *.
  assert (threadId ∉ pendingInterrupts w1) as Hfree
    by (rewrite Hpend1; set_solver).
  cbv zeta. rewrite onTurnStarted_world.
  rewrite bool_decide_eq_false_2 by exact Hfree.
  destruct second as [| c rest]; [congruence |]. cbn [truthyStr].
  unfold processing, activeTurn. cbn [store pendingInterrupts].
  split; [exact Hcalls1 |].
  autorewrite with store. rewrite !decide_True by reflexivity.
  repeat split. exact Hfree.
Qed.

(** ** A pending interrupt that outlives its turn *)


(** * The sidebar *)

(** X18: toggling a workspace in the collapsed (or expanded) set flips
    the membership of that workspace and of no other, and toggling twice
    gives back the set. *)
Theorem Sidebar_toggle_involution (entryId : string) (prev : gset string) :
  Sidebar.toggle entryId (Sidebar.toggle entryId prev) = prev
  ∧ (entryId ∈ Sidebar.toggle entryId prev ↔ entryId ∉ prev)
  ∧ (∀ other, other ≠ entryId →
       (other ∈ Sidebar.toggle entryId prev ↔ other ∈ prev)).
Proof.
  unfold Sidebar.toggle.
  destruct (bool_decide (entryId ∈ prev)) eqn:Hin.
  - apply bool_decide_eq_true in Hin.
    rewrite bool_decide_eq_false_2 by set_solver.
    split; [| set_solver].
    apply set_eq. intros x. destruct (decide (x = entryId)); set_solver.
  - apply bool_decide_eq_false in Hin.
    rewrite bool_decide_eq_true_2 by set_solver.
    split; set_solver.
Qed.

(** X19: the thread rows of a workspace. Expanded, all threads are
    shown. Collapsed, the rows are the first threads in order; without
    the "more" button they are all the threads, and with it they are
    three and the count the button announces is exactly the number of
    threads not shown. *)
Theorem Sidebar_thread_rows {A : Type} (threads : list A) :
  Sidebar.threadRows true threads = threads
  ∧ Sidebar.threadRows false threads `prefix_of` threads
  ∧ (Sidebar.hasMoreButton threads = false →
     Sidebar.threadRows false threads = threads)
  ∧ (Sidebar.hasMoreButton threads = true →
     length (Sidebar.threadRows false threads) = 3%nat
     ∧ (length (Sidebar.threadRows false threads)
        + Sidebar.hiddenCount threads)%nat = length threads).
Proof.
  unfold Sidebar.threadRows, Sidebar.hasMoreButton, Sidebar.hiddenCount.
  split; [reflexivity |]. split; [apply prefix_take |].
  split; intros Hmore.
  - apply Nat.ltb_ge in Hmore. apply take_ge. exact Hmore.
  - apply Nat.ltb_lt in Hmore. rewrite length_take. lia.
Qed.

(** X20: what the sidebar shows for a stopped thread. After
    interruptTurn on the active thread, and after turn-completed, the
    status indicator of the thread is never "processing": it is
    "reviewing" if the thread was reviewing, else "unread" or "ready" as
    its unread flag says. After a terminal turn-error it is "unread" or
    "ready". *)
Theorem Sidebar_status_after_stop
  {P : Type} (props : Props P) (workspace : WorkspaceInfo)
  (threadId eventWorkspaceId turnId message : string) (w : World) :
  let shown (w' : World) :=
    Sidebar.threadStatusClass (threadStatusById (store w') !! threadId) in
  let expected :=
    if reviewing w threadId then "reviewing"
    else if hasUnread (statusOf (store w) threadId) then "unread"
    else "ready" in
  (activeWorkspace props = Some workspace →
   activeThreadId props = Some threadId →
   threadId ≠ "" →
   shown (exec (interruptTurn props) w) = expected)
  ∧ shown (exec (onTurnCompleted eventWorkspaceId threadId turnId) w) =
    expected
  ∧ shown (exec (onTurnError eventWorkspaceId threadId turnId message false)
             w) =
    (if hasUnread (statusOf (store w) threadId) then "unread" else "ready").
Proof.
  cbv zeta. unfold Sidebar.threadStatusClass, reviewing.
  split; [| split].
  - intros Hws Hth Hne.
    destruct (interruptTurn_selected props workspace threadId w Hws Hth Hne)
      as (_ & -> & _ & _).
    cbn. rewrite lookup_insert_eq. cbn.
    destruct (isReviewing (statusOf (store w) threadId)); reflexivity.
  - run_hook. cbn. rewrite lookup_insert_eq. cbn.
    destruct (isReviewing (statusOf (store w) threadId)); reflexivity.
  - run_hook. cbn. rewrite lookup_insert_eq. cbn.
    autorewrite with store. rewrite !decide_True by reflexivity. cbn.
    autorewrite with store. reflexivity.
Qed.

(** * The transparency preference *)

(** X21: the stored transparency preference. What the hook persists is
    what it reads back, as a stored preference, whatever else the storage
    holds. Without a valid stored mode, the legacy flag "true" reads as
    the stored preference "reduced", and anything else as the default
    "blur" with no stored preference. *)
Theorem Transparency_read_after_persist
  (current : Transparency.TransparencyMode)
  (localStorage : gmap string string) :
  Transparency.readStoredTransparency
    (Transparency.persistMode current localStorage) =
    {| Transparency.mode := current;
       Transparency.hasStoredPreference := true |}
  ∧ (Transparency.isTransparencyMode
       (localStorage !! Transparency.STORAGE_KEY) = None →
     localStorage !! Transparency.LEGACY_STORAGE_KEY = Some "true" →
     Transparency.readStoredTransparency localStorage =
       {| Transparency.mode := Transparency.Reduced;
          Transparency.hasStoredPreference := true |})
  ∧ (Transparency.isTransparencyMode
       (localStorage !! Transparency.STORAGE_KEY) = None →
     localStorage !! Transparency.LEGACY_STORAGE_KEY ≠ Some "true" →
     Transparency.readStoredTransparency localStorage =
       {| Transparency.mode := Transparency.Blur;
          Transparency.hasStoredPreference := false |}).
Proof.
  split; [| split].
  - unfold Transparency.readStoredTransparency, Transparency.persistMode.
    rewrite lookup_insert_eq. destruct current; reflexivity.
  - intros Hnone Hlegacy. unfold Transparency.readStoredTransparency.
    rewrite Hnone, Hlegacy. reflexivity.
  - intros Hnone Hlegacy. unfold Transparency.readStoredTransparency.
    rewrite Hnone.
    destruct (localStorage !! Transparency.LEGACY_STORAGE_KEY)
      as [legacy |]; [| reflexivity].
    destruct (String.eqb legacy "true") eqn:Heq; [| reflexivity].
    apply String.eqb_eq in Heq. congruence.
Qed.

(** X22: the glass support check, when it resolves and is not cancelled.
    Afterwards the mode is "glass" only if glass is supported, and the
    mode is among the available modes; a stored preference is kept unless
    it is an unsupported "glass", and whether a preference is stored does
    not change. Checking again with the same answer changes nothing:
    the effect settles after one round. A rejected check keeps the
    preference and records glass as unsupported. *)
Theorem Transparency_support_check
  (supported : bool) (st : Transparency.HookState) :
  let st' := Transparency.checkSupport_settled false (Some supported) st in
  let pref := Transparency.preference st in
  let pref' := Transparency.preference st' in
  (Transparency.mode pref' = Transparency.Glass → supported = true)
  ∧ Transparency.mode pref'
      ∈ Transparency.availableModes (Transparency.glassSupported st')
  ∧ Transparency.hasStoredPreference pref' =
    Transparency.hasStoredPreference pref
  ∧ (Transparency.hasStoredPreference pref = true →
     supported = true ∨ Transparency.mode pref ≠ Transparency.Glass →
     pref' = pref)
  ∧ Transparency.checkSupport_settled false (Some supported) st' = st'
  ∧ Transparency.checkSupport_settled false None st =
    {| Transparency.preference := pref;
       Transparency.glassSupported := Some false |}.
Proof.
  destruct st as [[current stored] known].
  destruct supported, current, stored; cbn;
    repeat split; try reflexivity; try discriminate;
    try (intros _ [Hs | Hm]; [discriminate Hs | congruence]);
    try (intros _ _; reflexivity);
    unfold Transparency.availableModes; cbn;
    repeat first [ apply list_elem_of_here | apply list_elem_of_further ].
Qed.

(** * The model selection *)

Lemma find_elem {A : Type} (f : A → bool) (l : list A) (x : A) :
  List.find f l = Some x → x ∈ l ∧ f x = true.
Proof.
  intros Hfind. apply List.find_some in Hfind as [Hin Hf].
  split; [apply list_elem_of_In, Hin | exact Hf].
Qed.

Lemma find_is_Some {A : Type} (f : A → bool) (l : list A) (x : A) :
  x ∈ l → f x = true → is_Some (List.find f l).
Proof.
  intros Hin Hf. destruct (List.find f l) as [y |] eqn:Hfind; [eauto |].
  apply list_elem_of_In in Hin.
  pose proof (List.find_none f l Hfind x Hin) as Hnone. congruence.
Qed.

Lemma findById_elem (modelId : option string)
  (data : list Models.ModelOption) (m : Models.ModelOption) :
  Models.findById modelId data = Some m →
  m ∈ data ∧ modelId = Some (Models.id m).
Proof.
  destruct modelId as [wanted |]; [| discriminate]. cbn.
  intros [Hin Heq]%find_elem. apply String.eqb_eq in Heq.
  split; [exact Hin | congruence].
Qed.

Lemma findById_is_Some (data : list Models.ModelOption)
  (m : Models.ModelOption) :
  m ∈ data → is_Some (Models.findById (Some (Models.id m)) data).
Proof.
  intros Hin. cbn. apply (find_is_Some _ _ m Hin). apply String.eqb_refl.
Qed.

Lemma defaultModel_elem (data : list Models.ModelOption)
  (m : Models.ModelOption) :
  Models.defaultModel data = Some m → m ∈ data.
Proof.
  unfold Models.defaultModel.
  destruct (List.find _ data) as [preferred |] eqn:Hpreferred.
  - intros [= <-]. apply (find_elem _ _ _ Hpreferred).
  - destruct (List.find Models.isDefault data) as [flagged |] eqn:Hflagged.
    + intros [= <-]. apply (find_elem _ _ _ Hflagged).
    + destruct data as [| first rest]; [discriminate |].
      intros [= <-]. apply list_elem_of_here.
Qed.

Lemma nextSelection_elem (selected preferredModelId : option string)
  (data : list Models.ModelOption) (m : Models.ModelOption) :
  Models.nextSelection selected preferredModelId data = Some m → m ∈ data.
Proof.
  unfold Models.nextSelection.
  destruct (Models.findById selected data) as [existing |] eqn:Hexisting.
  - intros [= <-]. apply (findById_elem _ _ _ Hexisting).
  - destruct (Models.findById preferredModelId data) as [preferred |]
      eqn:Hpreferred.
    + intros [= <-]. apply (findById_elem _ _ _ Hpreferred).
    + apply defaultModel_elem.
Qed.

Lemma nextSelection_is_Some (selected preferredModelId : option string)
  (data : list Models.ModelOption) :
  data ≠ [] → is_Some (Models.nextSelection selected preferredModelId data).
Proof.
  intros Hdata. unfold Models.nextSelection, Models.defaultModel.
  destruct (Models.findById selected data); [eauto |].
  destruct (Models.findById preferredModelId data); [eauto |].
  destruct (List.find _ data); [eauto |].
  destruct (List.find Models.isDefault data); [eauto |].
  destruct data; [congruence | cbn; eauto].
Qed.

Lemma usable_supports (m : Models.ModelOption) (effort : option string) :
  Models.usable m effort = true →
  ∃ wanted, effort = Some wanted ∧ wanted ≠ ""
            ∧ Models.supports m wanted = true.
Proof.
  destruct effort as [[| c rest] |]; try discriminate. cbn.
  intros Hsupports. exists (String c rest).
  split; [reflexivity |]. split; [discriminate | exact Hsupports].
Qed.

Lemma nextEffort_valid (selected preferredEffort : option string)
  (next : Models.ModelOption) :
  ∃ effort,
    Models.nextEffort selected preferredEffort next = Some effort
    ∧ (Models.supports next effort = true
       ∨ effort = Models.defaultReasoningEffort next).
Proof.
  unfold Models.nextEffort.
  destruct (Models.usable next selected) eqn:Hselected.
  - destruct (usable_supports _ _ Hselected) as (e & -> & _ & Hs). eauto.
  - destruct (Models.usable next preferredEffort) eqn:Hpreferred.
    + destruct (usable_supports _ _ Hpreferred) as (e & -> & _ & Hs). eauto.
    + eauto.
Qed.

(** X23: the model selected after a refresh. The list becomes the
    fetched one. If it is empty the selection is left as it was;
    otherwise the selected id is the id of a model in the list, so a
    selected model exists. A selection that is still in the list is
    kept, and failing that a preferred model that is in the list is
    taken. *)
Theorem Models_refresh_selection
  (preferredModelId preferredEffort selected selectedEffortThen
     : option string)
  (data : list Models.ModelOption) (st : Models.State) :
  let st' :=
    Models.refreshModels_settled preferredModelId preferredEffort selected
      selectedEffortThen data st in
  Models.models st' = data
  ∧ (data = [] →
     Models.selectedModelId st' = Models.selectedModelId st
     ∧ Models.selectedEffort st' = Models.selectedEffort st)
  ∧ (data ≠ [] →
     ∃ m, m ∈ data
          ∧ Models.selectedModelId st' = Some (Models.id m)
          ∧ is_Some (Models.selectedModel st'))
  ∧ (∀ m, m ∈ data → selected = Some (Models.id m) →
          Models.selectedModelId st' = selected)
  ∧ (∀ m, Models.findById selected data = None →
          m ∈ data → preferredModelId = Some (Models.id m) →
          Models.selectedModelId st' = preferredModelId).
Proof.
  cbv zeta. unfold Models.refreshModels_settled.
  split; [destruct (Models.nextSelection _ _ data); reflexivity |].
  split;
    [intros ->; destruct selected, preferredModelId; split; reflexivity |].
  split; [| split].
  - intros Hdata.
    destruct (nextSelection_is_Some selected preferredModelId data Hdata)
      as [next Hnext].
    rewrite Hnext. exists next.
    pose proof (nextSelection_elem _ _ _ _ Hnext) as Hin.
    split; [exact Hin |]. split; [reflexivity |].
    unfold Models.selectedModel; cbn [Models.selectedModelId Models.models].
    apply findById_is_Some, Hin.
  - intros m Hin ->.
    destruct (findById_is_Some data m Hin) as [existing Hexisting].
    unfold Models.nextSelection. rewrite Hexisting.
    cbn [Models.selectedModelId].
    destruct (findById_elem _ _ _ Hexisting) as [_ Hid]. congruence.
  - intros m Hnone Hin ->.
    destruct (findById_is_Some data m Hin) as [preferred Hpreferred].
    unfold Models.nextSelection. rewrite Hnone, Hpreferred.
    cbn [Models.selectedModelId].
    destruct (findById_elem _ _ _ Hpreferred) as [_ Hid]. congruence.
Qed.

(** X24: the reasoning effort selected after a refresh of a non-empty
    list is always usable with the model selected: it is one of the
    efforts that model supports, or the model's default effort. The
    effort selected before is kept when that model supports it. *)
Theorem Models_refresh_effort
  (preferredModelId preferredEffort selected selectedEffortThen
     : option string)
  (data : list Models.ModelOption) (st : Models.State) :
  data ≠ [] →
  let st' :=
    Models.refreshModels_settled preferredModelId preferredEffort selected
      selectedEffortThen data st in
  ∃ m effort,
    m ∈ data
    ∧ Models.selectedModelId st' = Some (Models.id m)
    ∧ Models.selectedEffort st' = Some effort
    ∧ (Models.supports m effort = true
       ∨ effort = Models.defaultReasoningEffort m)
    ∧ (Models.usable m selectedEffortThen = true →
       Models.selectedEffort st' = selectedEffortThen).
Proof.
  intros Hdata. cbv zeta. unfold Models.refreshModels_settled.
  destruct (nextSelection_is_Some selected preferredModelId data Hdata)
    as [next Hnext].
  rewrite Hnext.
  destruct (nextEffort_valid selectedEffortThen preferredEffort next)
    as (effort & Heffort & Hvalid).
  exists next, effort. cbn [Models.selectedModelId Models.selectedEffort].
  split; [apply (nextSelection_elem _ _ _ _ Hnext) |].
  split; [reflexivity |]. split; [exact Heffort |].
  split; [exact Hvalid |].
  intros Husable. unfold Models.nextEffort. rewrite Husable. reflexivity.
Qed.

(** X25: the effect that repairs the selected effort. It never changes
    the model list or the selected model. With a model selected, the
    effort afterwards is one the model supports or the model's default;
    with none selected, nothing changes. Running the effect again
    changes nothing. *)
Theorem Models_effortEffect (st : Models.State) :
  let st' := Models.effortEffect st in
  Models.models st' = Models.models st
  ∧ Models.selectedModelId st' = Models.selectedModelId st
  ∧ (∀ m, Models.selectedModel st = Some m →
          ∃ effort,
            Models.selectedEffort st' = Some effort
            ∧ (Models.supports m effort = true
               ∨ effort = Models.defaultReasoningEffort m))
  ∧ (Models.selectedModel st = None → st' = st)
  ∧ Models.effortEffect st' = st'.
Proof.
  cbv zeta. unfold Models.effortEffect.
  destruct (Models.selectedModel st) as [m |] eqn:Hmodel.
  - destruct (Models.usable m (Models.selectedEffort st)) eqn:Husable.
    + rewrite Hmodel, Husable. repeat split; try discriminate.
      intros m' [= <-].
      destruct (usable_supports _ _ Husable) as (e & He & _ & Hs). eauto.
    + assert (Models.selectedModel
                {| Models.models := Models.models st;
                   Models.selectedModelId := Models.selectedModelId st;
                   Models.selectedEffort :=
                     Some (Models.defaultReasoningEffort m) |} = Some m)
        as Hsame by exact Hmodel.
      rewrite Hsame.
      cbn [Models.models Models.selectedModelId Models.selectedEffort].
      split; [reflexivity |]. split; [reflexivity |].
      split; [intros m' [= <-]; eauto |].
      split; [discriminate |].
      destruct (Models.usable m (Some (Models.defaultReasoningEffort m)));
        reflexivity.
  - rewrite Hmodel. repeat split; discriminate.
Qed.

Lemma refreshModels_cases (activeWorkspace : option WorkspaceInfo)
  (s : Models.Session) :
  Models.refreshModels activeWorkspace s = s
  ∨ ∃ workspaceId,
      Models.inFlight s = false
      ∧ Models.refreshModels activeWorkspace s =
          {| Models.state := Models.state s;
             Models.inFlight := true;
             Models.lastFetchedWorkspaceId :=
               Models.lastFetchedWorkspaceId s;
             Models.requests := Models.requests s ++ [workspaceId] |}.
Proof.
  unfold Models.refreshModels.
  destruct (Models.workspaceIdOf activeWorkspace) as [[| c rest] |];
    try (left; reflexivity).
  destruct (negb (Models.isConnected activeWorkspace)); [left; reflexivity |].
  destruct (Models.inFlight s) eqn:Hflight; [left; reflexivity |].
  right. exists (String c rest). split; reflexivity.
Qed.

Lemma refreshModels_repeated (activeWorkspace : option WorkspaceInfo)
  (n : nat) (s : Models.Session) :
  Models.requests (Nat.iter n (Models.refreshModels activeWorkspace) s) =
    Models.requests s
  ∨ ∃ workspaceId,
      Models.requests (Nat.iter n (Models.refreshModels activeWorkspace) s) =
        Models.requests s ++ [workspaceId]
      ∧ Models.inFlight
          (Nat.iter n (Models.refreshModels activeWorkspace) s) = true.
Proof.
  induction n as [| n IH]; [left; reflexivity |].
  change (Nat.iter (S n) (Models.refreshModels activeWorkspace) s)
    with (Models.refreshModels activeWorkspace
            (Nat.iter n (Models.refreshModels activeWorkspace) s)).
  set (s' := Nat.iter n (Models.refreshModels activeWorkspace) s) in *.
  destruct (refreshModels_cases activeWorkspace s')
    as [-> | (workspaceId & Hflight & ->)]; [exact IH |].
  destruct IH as [Hsame | (other & _ & Hbusy)]; [| congruence].
  right. exists workspaceId. cbn. rewrite Hsame. split; reflexivity.
Qed.

(** X26: at most one model-list request is in flight. While a request is
    in flight refreshModels returns without asking again, so any number
    of calls in a row issues at most one request. The flag is cleared
    when the request settles, either way; a rejected request leaves the
    models and the selection as they were. After a successful refresh
    with a non-empty list, the fetch effect for that workspace asks no
    more. *)
Theorem Models_single_flight
  (activeWorkspace : option WorkspaceInfo) (s : Models.Session) :
  (Models.inFlight s = true → Models.refreshModels activeWorkspace s = s)
  ∧ (∀ n,
       (length (Models.requests
                  (Nat.iter n (Models.refreshModels activeWorkspace) s))
        ≤ S (length (Models.requests s)))%nat)
  ∧ (∀ workspaceId preferredModelId preferredEffort selected
       selectedEffortThen outcome,
       Models.inFlight
         (Models.refreshModels_done workspaceId preferredModelId
            preferredEffort selected selectedEffortThen outcome s) = false)
  ∧ (∀ workspaceId preferredModelId preferredEffort selected
       selectedEffortThen,
       Models.state
         (Models.refreshModels_done workspaceId preferredModelId
            preferredEffort selected selectedEffortThen None s) =
       Models.state s)
  ∧ (∀ workspace preferredModelId preferredEffort selected
       selectedEffortThen data,
       activeWorkspace = Some workspace →
       id workspace ≠ "" →
       data ≠ [] →
       Models.fetchEffect activeWorkspace
         (Models.refreshModels_done (id workspace) preferredModelId
            preferredEffort selected selectedEffortThen (Some data) s) =
       Models.refreshModels_done (id workspace) preferredModelId
         preferredEffort selected selectedEffortThen (Some data) s).
Proof.
  split; [| split; [| split; [| split]]].
  - intros Hflight.
    destruct (refreshModels_cases activeWorkspace s)
      as [-> | (workspaceId & Hidle & _)]; [reflexivity | congruence].
  - intros n.
    destruct (refreshModels_repeated activeWorkspace n s)
      as [-> | (workspaceId & -> & _)]; [lia |].
    rewrite length_app. cbn. lia.
  - intros. destruct outcome; reflexivity.
  - reflexivity.
  - intros workspace preferredModelId preferredEffort selected
      selectedEffortThen data -> Hid Hdata.
    unfold Models.fetchEffect. cbn [Models.workspaceIdOf option_map].
    destruct (id workspace) as [| c rest] eqn:Hwid; [congruence |].
    destruct (negb (Models.isConnected (Some workspace)));
      [reflexivity |].
    cbn [Models.refreshModels_done Models.lastFetchedWorkspaceId
         Models.state].
    rewrite bool_decide_eq_true_2 by reflexivity.
    assert (Models.models
              (Models.refreshModels_settled preferredModelId preferredEffort
                 selected selectedEffortThen data (Models.state s)) = data)
      as ->.
    { unfold Models.refreshModels_settled.
      destruct (Models.nextSelection _ _ data); reflexivity. }
    destruct data; [congruence | reflexivity].
Qed.

(** * The glass effect *)

(** X28: what one run of the glass effect never does. Liquid glass is
    switched on only when it is supported, the mode is "glass" and the
    run was not cancelled, and then it is never switched off in the same
    run. The HUD window effect is applied only outside "reduced" mode, on
    a Macintosh or Linux user agent, and never together with liquid
    glass. Support is asked for only while it is unknown, and is known
    after the run. *)
Theorem LiquidGlass_apply_never
  (supportedRef : option bool) (answer cancelled : bool)
  (transparencyMode : Transparency.TransparencyMode)
  (userAgent : option string) :
  let run :=
    LiquidGlass.apply supportedRef answer cancelled transparencyMode
      userAgent in
  let supported := default answer supportedRef in
  (∀ radius,
     LiquidGlass.EnableLiquidGlass radius ∈ run.2 →
     supported = true
     ∧ transparencyMode = Transparency.Glass
     ∧ cancelled = false
     ∧ radius = 16%Z
     ∧ (LiquidGlass.DisableLiquidGlass ∉ run.2)
     ∧ ∀ r, LiquidGlass.HudWindowEffect r ∉ run.2)
  ∧ (∀ radius,
       LiquidGlass.HudWindowEffect radius ∈ run.2 →
       transparencyMode ≠ Transparency.Reduced
       ∧ cancelled = false
       ∧ (LiquidGlass.includes "Macintosh" (default "" userAgent) = true
          ∨ LiquidGlass.includes "Linux" (default "" userAgent) = true))
  ∧ (LiquidGlass.QueryGlassSupport ∈ run.2 ↔ supportedRef = None)
  ∧ run.1 = Some supported.
Proof.
  cbv zeta. unfold LiquidGlass.apply.
  destruct supportedRef as [[|] |], answer, cancelled, transparencyMode;
    cbn [default andb negb app fst snd];
    destruct (LiquidGlass.includes "Macintosh" (default "" userAgent));
    destruct (LiquidGlass.includes "Linux" (default "" userAgent));
    cbn [andb negb app];
    (split; [intros radius Hin | split; [intros radius Hin | split]]);
    try (exfalso; set_solver);
    try (split; [intros Hq; exfalso; set_solver | discriminate]);
    try (split; [reflexivity | set_solver]);
    try reflexivity;
    try (repeat split; try discriminate; try (left; reflexivity);
         try (right; reflexivity); set_solver).
Qed.

(** * A turn from start to end *)

Lemma onTurnStarted_free (workspaceId threadId turnId : string) (w : World) :
  threadId ∉ pendingInterrupts w →
  turnId ≠ "" →
  let w' := exec (onTurnStarted workspaceId threadId turnId) w in
  processing w' threadId = true
  ∧ activeTurn w' threadId = Some turnId
  ∧ pendingInterrupts w' = pendingInterrupts w
  ∧ interruptCalls w' = interruptCalls w.
Proof.
  intros Hfree Hne. cbv zeta. rewrite onTurnStarted_world.
  rewrite bool_decide_eq_false_2 by exact Hfree.
  destruct turnId as [| c rest]; [congruence |]. cbn [truthyStr].
  unfold processing, activeTurn; cbn [store pendingInterrupts].
  autorewrite with store. rewrite !decide_True by reflexivity.
  repeat split.
Qed.

Lemma onTurnCompleted_observed
  (workspaceId threadId turnId : string) (w : World) :
  let w' := exec (onTurnCompleted workspaceId threadId turnId) w in
  processing w' threadId = false
  ∧ activeTurn w' threadId = None
  ∧ pendingInterrupts w' = pendingInterrupts w ∖ {[threadId]}
  ∧ interruptCalls w' = interruptCalls w.
Proof.
  cbv zeta. run_hook. autorewrite with store.
  rewrite !decide_True by reflexivity. repeat split.
Qed.

(** X27: a turn that nobody interrupts. From a thread with no interrupt
    pending: a message is sent, the start RPC resolves with turn id T and
    turn-started arrives with T, in either order. Either way the thread
    is then processing with T as its active turn; turn-completed returns
    it to not processing with no active turn id, and no interrupt RPC has
    been issued on the way. *)
Theorem uninterrupted_turn
  {P : Type} (expand : string → list P → PromptExpansion)
  (parse : string → JValue) (props : Props P) (workspace : WorkspaceInfo)
  (threadId text : string) (images : list string)
  (options : option SendMessageOptions) (clock : Clock)
  (eventWorkspaceId turnId : string) (response : JValue) (w : World) :
  threadId ∉ pendingInterrupts w →
  turnId ≠ "" →
  hasEmbeddedError response = false →
  responseTurnId response = turnId →
  let send :=
    CallSendMessageToThread props workspace threadId text images options
      clock in
  let settled := SettleStartTurn props threadId (Resolved response) in
  let started := TurnStarted eventWorkspaceId threadId turnId in
  let completed := TurnCompleted eventWorkspaceId threadId turnId in
  let observed (w' : World) :=
    (processing w' threadId, activeTurn w' threadId) in
  observed (run expand parse w [send; settled; started]) =
    (true, Some turnId)
  ∧ observed (run expand parse w [send; started; settled]) =
    (true, Some turnId)
  ∧ observed (run expand parse w [send; settled; started; completed]) =
    (false, None)
  ∧ observed (run expand parse w [send; started; settled; completed]) =
    (false, None)
  ∧ interruptCalls (run expand parse w [send; settled; started; completed])
    = interruptCalls w
  ∧ interruptCalls (run expand parse w [send; started; settled; completed])
    = interruptCalls w
  ∧ threadId ∉ pendingInterrupts
                 (run expand parse w [send; settled; started; completed]).
Proof.
  intros Hfree HT Herr Hid. cbv zeta. unfold run; cbn [fold_left step].
  destruct (sendMessageToThread_frame expand props workspace threadId text
              images options clock w) as (_ & Hpend1 & Hcalls1 & _).
  set (w1 := exec (sendMessageToThread expand props workspace threadId text
                     images options clock) w) in *.
  assert (threadId ∉ pendingInterrupts w1) as Hfree1
    by (rewrite Hpend1; exact Hfree).
  (* the response first *)
  destruct (sendMessageToThread_settled_success props threadId turnId
              response w1 Herr Hid HT) as (_ & _ & Hpend2 & Hcalls2).
  set (w2 := exec (sendMessageToThread_settled props threadId
                     (Resolved response)) w1) in *.
  assert (threadId ∉ pendingInterrupts w2) as Hfree2
    by (rewrite Hpend2; exact Hfree1).
  destruct (onTurnStarted_free eventWorkspaceId threadId turnId w2
              Hfree2 HT) as (Hproc3 & Hturn3 & Hpend3 & Hcalls3).
  set (w3 := exec (onTurnStarted eventWorkspaceId threadId turnId) w2) in *.
  destruct (onTurnCompleted_observed eventWorkspaceId threadId turnId w3)
    as (Hproc4 & Hturn4 & Hpend4 & Hcalls4).
  (* the event first *)
  destruct (onTurnStarted_free eventWorkspaceId threadId turnId w1
              Hfree1 HT) as (Hproc5 & _ & _ & Hcalls5).
  set (w5 := exec (onTurnStarted eventWorkspaceId threadId turnId) w1) in *.
  destruct (sendMessageToThread_settled_success props threadId turnId
              response w5 Herr Hid HT) as (Hproc6 & Hturn6 & _ & Hcalls6).
  set (w6 := exec (sendMessageToThread_settled props threadId
                     (Resolved response)) w5) in *.
  destruct (onTurnCompleted_observed eventWorkspaceId threadId turnId w6)
    as (Hproc7 & Hturn7 & _ & Hcalls7).
  split; [rewrite Hproc3, Hturn3; reflexivity |].
  split; [rewrite Hproc6, Hproc5, Hturn6; reflexivity |].
  split; [rewrite Hproc4, Hturn4; reflexivity |].
  split; [rewrite Hproc7, Hturn7; reflexivity |].
  split; [congruence |]. split; [congruence |].
  rewrite Hpend4. set_solver.
Qed.

(** * The further properties at sample inputs *)



Lemma t1_named : "t1" ≠ "".
Proof. discriminate. Qed.

Lemma turn1_named : "turn-1" ≠ "".
Proof. discriminate. Qed.

Lemma noEmptyTurnId_emptyWorld : noEmptyTurnId emptyWorld.
Proof.
  intros threadId. unfold activeTurn, activeTurnIdOf, emptyWorld, emptyStore.
  cbn [store activeTurnIdByThread]. rewrite lookup_empty. discriminate.
Qed.

Lemma reviewFailing_no_interrupt :
  Forall (λ e : Event unit, isInterruptCommand e = false) reviewFailing.
Proof. repeat constructor. Qed.







Lemma processingWorld_turn : activeTurn processingWorld "t1" = Some "turn-1".
Proof. vm_compute. reflexivity. Qed.

Lemma interruptTurn_known_turn_witness :
  (activeWorkspace props1 = Some ws1
   ∧ activeThreadId props1 = Some "t1"
   ∧ "t1" ≠ ""
   ∧ activeTurn processingWorld "t1" = Some "turn-1"
   ∧ "turn-1" ≠ "")
  ∧ rpcCalls (exec (interruptTurn props1) processingWorld) =
    rpcCalls processingWorld ++ [InterruptTurnRpc (id ws1) "t1" "turn-1"].
Proof.
  split.
  - split; [reflexivity |]. split; [reflexivity |].
    split; [exact t1_named |].
    split; [exact processingWorld_turn | exact turn1_named].
  - exact (proj1
             (interruptTurn_known_turn props1 ws1 "t1" "turn-1"
                processingWorld eq_refl eq_refl t1_named processingWorld_turn
                turn1_named)).
Defined.

Lemma thread_isolation_witness :
  touches (TurnCompleted "ws1" "t2" "turn-9" : Event unit) "t1" = false
  ∧ sameThread processingWorld
      (step noExpansion sampleParseReviewTarget processingWorld
         (TurnCompleted "ws1" "t2" "turn-9")) "t1".
Proof.
  split; [reflexivity |].
  exact (thread_isolation noExpansion sampleParseReviewTarget
           (TurnCompleted "ws1" "t2" "turn-9") "t1" processingWorld eq_refl).
Defined.

Lemma onTurnStarted_records_turn_witness :
  (("t1" ∉ pendingInterrupts emptyWorld) ∧ "turn-1" ≠ "")
  ∧ activeTurn (exec (onTurnStarted "ws1" "t1" "turn-1") emptyWorld) "t1" =
    Some "turn-1".
Proof.
  assert ("t1" ∉ pendingInterrupts emptyWorld) as Hfree
    by apply not_elem_of_empty.
  split; [split; [exact Hfree | exact turn1_named] |].
  exact (proj1 (proj2 (proj2
           (onTurnStarted_records_turn "ws1" "t1" "turn-1" emptyWorld Hfree
              turn1_named)))).
Defined.

Lemma turn2_named : "turn-2" ≠ "".
Proof. discriminate. Qed.

Lemma pending_interrupt_consumed_once_witness :
  ("t1" ∈ pendingInterrupts pendingWorld ∧ "turn-1" ≠ "" ∧ "turn-2" ≠ "")
  ∧ interruptCalls
      (exec (onTurnStarted "ws1" "t1" "turn-2")
         (exec (onTurnStarted "ws1" "t1" "turn-1") pendingWorld)) =
    interruptCalls pendingWorld ++ [("ws1", "t1", "turn-1")].
Proof.
  split;
    [split; [exact pendingWorld_pending
            | split; [exact turn1_named | exact turn2_named]] |].
  exact (proj1
           (pending_interrupt_consumed_once "ws1" "t1" "turn-1" "turn-2"
              pendingWorld pendingWorld_pending turn1_named turn2_named)).
Defined.


Lemma activeTurn_never_empty_witness :
  noEmptyTurnId emptyWorld
  ∧ noEmptyTurnId
      (run noExpansion sampleParseReviewTarget emptyWorld reviewFailing).
Proof.
  split; [exact noEmptyTurnId_emptyWorld |].
  exact (activeTurn_never_empty noExpansion sampleParseReviewTarget
           reviewFailing emptyWorld noEmptyTurnId_emptyWorld).
Defined.

Lemma pendingInterrupts_grow_witness :
  Forall (λ e : Event unit, isInterruptCommand e = false) reviewFailing
  ∧ pendingInterrupts
      (run noExpansion sampleParseReviewTarget pendingWorld reviewFailing)
    ⊆ pendingInterrupts pendingWorld.
Proof.
  split; [exact reviewFailing_no_interrupt |].
  exact (pendingInterrupts_grow_only_by_interruptTurn noExpansion
           sampleParseReviewTarget reviewFailing pendingWorld
           reviewFailing_no_interrupt).
Defined.

Lemma no_interrupt_without_interruptTurn_witness :
  (pendingInterrupts emptyWorld = ∅
   ∧ Forall (λ e : Event unit, isInterruptCommand e = false) reviewFailing)
  ∧ interruptCalls
      (run noExpansion sampleParseReviewTarget emptyWorld reviewFailing) =
    interruptCalls emptyWorld.
Proof.
  split; [split; [reflexivity | exact reviewFailing_no_interrupt] |].
  exact (proj2
           (no_interrupt_without_interruptTurn noExpansion
              sampleParseReviewTarget reviewFailing emptyWorld eq_refl
              reviewFailing_no_interrupt)).
Defined.

Lemma sampleModels_not_empty : sampleModels ≠ [].
Proof. discriminate. Qed.

Lemma Models_refresh_effort_witness :
  sampleModels ≠ []
  ∧ ∃ m effort,
      m ∈ sampleModels
      ∧ Models.selectedModelId
          (Models.refreshModels_settled None (Some "high") None None
             sampleModels noModels) = Some (Models.id m)
      ∧ Models.selectedEffort
          (Models.refreshModels_settled None (Some "high") None None
             sampleModels noModels) = Some effort
      ∧ (Models.supports m effort = true
         ∨ effort = Models.defaultReasoningEffort m)
      ∧ (Models.usable m None = true →
         Models.selectedEffort
           (Models.refreshModels_settled None (Some "high") None None
              sampleModels noModels) = None).
Proof.
  split; [exact sampleModels_not_empty |].
  exact (Models_refresh_effort None (Some "high") None None sampleModels
           noModels sampleModels_not_empty).
Defined.

Lemma uninterrupted_turn_witness :
  (("t1" ∉ pendingInterrupts emptyWorld)
   ∧ "turn-1" ≠ ""
   ∧ hasEmbeddedError (turnStartResponse "turn-1") = false
   ∧ responseTurnId (turnStartResponse "turn-1") = "turn-1")
  ∧ (processing
       (run noExpansion sampleParseReviewTarget emptyWorld
          [CallSendMessageToThread props1 ws1 "t1" "hello" [] None clock1;
           SettleStartTurn props1 "t1"
             (Resolved (turnStartResponse "turn-1"));
           TurnStarted "ws1" "t1" "turn-1"]) "t1",
     activeTurn
       (run noExpansion sampleParseReviewTarget emptyWorld
          [CallSendMessageToThread props1 ws1 "t1" "hello" [] None clock1;
           SettleStartTurn props1 "t1"
             (Resolved (turnStartResponse "turn-1"));
           TurnStarted "ws1" "t1" "turn-1"]) "t1") =
    (true, Some "turn-1").
Proof.
  assert ("t1" ∉ pendingInterrupts emptyWorld) as Hfree
    by apply not_elem_of_empty.
  split.
  - split; [exact Hfree |]. split; [exact turn1_named |].
    split; reflexivity.
  - exact (proj1
             (uninterrupted_turn noExpansion sampleParseReviewTarget props1
                ws1 "t1" "hello" [] None clock1 "ws1" "turn-1"
                (turnStartResponse "turn-1") emptyWorld Hfree turn1_named
                eq_refl eq_refl)).
Defined.
